(** * plot_spectra: the spectrometer plotting script of CalanDigital

    A shallow embedding of [scripts/plot_spectra.py] and the properties
    its specification states about it.

    The script is Python 2 code (it drives ROACH boards through the
    [corr]-based [calandigital] package): [/] between two [int]s is floor
    division, and the slices of line 43 only accept the integer it
    yields.  The embedding follows that reading throughout.

    Conventions.
    - Python [int]s are [Z] (they do not wrap).
    - Python [float]s and numpy's [float64] are binary64 numbers: the
      primitive [float] of the standard library, whose operations round
      to nearest, ties to even, as the processor's do.  The bandwidth,
      the frequency axis and the full-scale reference are such numbers.
    - A statement that can raise returns an [outcome]; [Unmodelled] marks
      the places where the script leaves the fragment embedded here
      (a float-valued channel count, a figure asked for without any
      channel, command-line spellings that the parser model does not
      cover).
    - The collaborators ([calandigital], the instrument, matplotlib's
      event loop) are parameters of the development; every call to them
      is recorded in a call log. *)

From Stdlib Require Import List ZArith QArith String Ascii Bool Lia.
From Stdlib Require Import DecimalString Floats.
Import ListNotations.

Open Scope string_scope.
Open Scope list_scope.
Open Scope Z_scope.

(** Decimal literals such as [6.02] denote the nearest binary64 number,
    as they do in Python. *)
Set Warnings "-inexact-float".

(** ** Outcomes of Python statements *)

Inductive exn : Type :=
| TypeError
| KeyError
| ZeroDivisionError
| SystemExit (code : Z).

Inductive outcome (A : Type) : Type :=
| Ok (a : A)
| Raise (e : exn)
| Unmodelled.

Arguments Ok {A} a.
Arguments Raise {A} e.
Arguments Unmodelled {A}.

Definition bind {A B : Type} (m : outcome A) (k : A -> outcome B) : outcome B :=
  match m with
  | Ok a => k a
  | Raise e => Raise e
  | Unmodelled => Unmodelled
  end.

Declare Scope py_scope.
Delimit Scope py_scope with py.
Notation "x <- m ;; k" := (bind m (fun x => k))
  (at level 100, m at next level, right associativity) : py_scope.
Open Scope py_scope.

Fixpoint mapM {A B : Type} (f : A -> outcome B) (l : list A) : outcome (list B) :=
  match l with
  | [] => Ok []
  | a :: l' => b <- f a ;; bs <- mapM f l' ;; Ok (b :: bs)
  end.

(** ** Python primitives used by the script *)

Module Py.

(** [len(x)]: [None] has no length. *)
Definition len {A : Type} (x : option (list A)) : outcome Z :=
  match x with
  | Some l => Ok (Z.of_nat (List.length l))
  | None => Raise TypeError
  end.

(** [a / b] on two [int]s (Python 2): floor division. *)
Definition div (a b : Z) : outcome Z :=
  if b =? 0 then Raise ZeroDivisionError else Ok (a / b).

(** [range(n)]. *)
Definition range (n : Z) : list Z :=
  map Z.of_nat (seq 0 (Z.to_nat n)).

(** Normalisation of one slice bound against a length: a negative bound
    counts from the end, and the result is clipped to [0 .. n]. *)
Definition clip (n i : Z) : Z :=
  let i' := if i <? 0 then i + n else i in
  Z.max 0 (Z.min n i').

(** [l[i:j]] on a list. *)
Definition slice {A : Type} (l : list A) (i j : Z) : list A :=
  let n := Z.of_nat (List.length l) in
  let lo := clip n i in
  let hi := clip n j in
  firstn (Z.to_nat (hi - lo)) (skipn (Z.to_nat lo) l).

(** [x[i:j]] where [x] may be [None]. *)
Definition getslice {A : Type} (x : option (list A)) (i j : Z) : outcome (list A) :=
  match x with
  | Some l => Ok (slice l i j)
  | None => Raise TypeError
  end.

(** [2**e] stays an [int] for [e >= 0]; for a negative exponent Python
    yields a float, which is outside the embedding. *)
Definition pow2 (e : Z) : outcome Z :=
  if e <? 0 then Unmodelled else Ok (2 ^ e).

(** [str(i)] for a non-negative [int]. *)
Definition str (i : nat) : string :=
  NilZero.string_of_uint (Nat.to_uint i).

(** An [int] where a float is needed ([float(i)], [6.02*i], an [int]
    handed to numpy): the nearest binary64 number, ties to even.  Python
    raises [OverflowError] for an [int] beyond the binary64 range; here
    such an [int] becomes an infinity. *)
Definition float_of_int (z : Z) : float :=
  SF2Prim (binary_normalize prec emax z 0 false).

(** The binary64 number nearest to the fraction [m / d], ties to even,
    for [0 <= m] and [0 < d]: the quotient with its rounding position,
    then rounded as every binary64 operation is. *)
Definition nearest (m d : Z) : float :=
  if m =? 0 then 0%float
  else
    let '(q, e, l) := SFdiv_core_binary prec emax m 0 d 0 in
    SF2Prim (binary_round_aux prec emax false q e l).

End Py.

(** ** The configuration record (the namespace returned by [parse_args]) *)

Record args : Type := mkArgs {
  ip        : string;
  boffile   : option string;
  rver      : Z;
  bramnames : option (list string);
  nspecs    : Z;
  dtype     : string;
  awidth    : Z;
  dwidth    : Z;
  bandwidth : float;
  nbits     : Z;
  count_reg : string;
  acc_reg   : string;
  acclen    : Z
}.

(** [choices={1,2,4,16}] of [--nspecs]. *)
Definition nspecs_choices : list Z := [1; 2; 4; 16].
(** [choices={1,2}] of [--rver]. *)
Definition rver_choices : list Z := [1; 2].

(** ** The parameter deriver (lines 42 to 45 of [main]) *)

(** [nbrams = len(args.bramnames) / args.nspecs] *)
Definition nbrams_of (a : args) : outcome Z :=
  m <- Py.len (bramnames a) ;; Py.div m (nspecs a).

(** [specbrams_list = [args.bramnames[i*nbrams:(i+1)*nbrams]
                       for i in range(args.nspecs)]] *)
Definition specbrams_list_of (a : args) (nbrams : Z) : outcome (list (list string)) :=
  mapM (fun i => Py.getslice (bramnames a) (i * nbrams) ((i + 1) * nbrams))
       (Py.range (nspecs a)).

(** [nchannels = 2**args.awidth * nbrams] *)
Definition nchannels_of (a : args) (nbrams : Z) : outcome Z :=
  p <- Py.pow2 (awidth a) ;; Ok (p * nbrams).

(** [np.linspace(start, stop, num, endpoint=False)] on two floats, as
    numpy computes it in binary64:
    [delta = stop - start; step = delta / num; y = arange(0, num)],
    then [y = y * step], or [y = (y / num) * delta] when [step == 0]
    (numpy's handling of a step that underflows), and [y += start].
    No sample for [num <= 0]. *)
Definition linspace (start stop : float) (num : Z) : list float :=
  let delta := (stop - start)%float in
  let div := Py.float_of_int num in
  let step := (delta / div)%float in
  map (fun i =>
         let y := Py.float_of_int i in
         ((if (step =? 0)%float then y / div * delta else y * step)
          + start)%float)
      (Py.range num).

(** [freqs = np.linspace(0, args.bandwidth, nchannels, endpoint=False)] *)
Definition freqs_of (a : args) (nchannels : Z) : list float :=
  linspace 0 (bandwidth a) nchannels.

(** Lines 42 to 45 together: [nbrams], [specbrams_list], [nchannels] and
    [freqs]. *)
Definition derive (a : args) : outcome (Z * list (list string) * Z * list float) :=
  nbrams <- nbrams_of a ;;
  specbrams_list <- specbrams_list_of a nbrams ;;
  nchannels <- nchannels_of a nbrams ;;
  Ok (nbrams, specbrams_list, nchannels, freqs_of a nchannels).

(** ** matplotlib objects *)

Definition handle : Type := nat.

Record figure : Type := mkFigure {
  fig_nrows : nat;
  fig_ncols : nat;
  fig_tight_layout : bool
}.

(** One subplot, as far as the script acts on it.  [ax_row], [ax_col]
    is its position in the grid returned by [plt.subplots].
    [ax_xlim_asked] and [ax_ylim_asked] are the limits the script asked
    for with its last [set_xlim] and [set_ylim] call ([None] before any
    call); the view limits matplotlib derives from them (it widens an
    empty range, for one) are matplotlib's business and not recorded.
    The labels and the title are the texts last set, [ax_grid] tells
    whether [grid()] was called, [ax_lines] lists the lines plotted. *)
Record axes_obj : Type := mkAxes {
  ax_row        : nat;
  ax_col        : nat;
  ax_xlim_asked : option (float * float);
  ax_ylim_asked : option (float * float);
  ax_xlabel     : string;
  ax_ylabel     : string;
  ax_title      : string;
  ax_grid       : bool;
  ax_lines      : list handle
}.

Definition new_axes (r c : nat) : axes_obj :=
  mkAxes r c None None "" "" "" false [].

(** In-place update of the object behind a handle. *)
Fixpoint update {A : Type} (n : nat) (f : A -> A) (l : list A) : list A :=
  match l, n with
  | [], _ => []
  | x :: l', O => f x :: l'
  | x :: l', S n' => x :: update n' f l'
  end.

(** [axmap = {1 : (1,1), 2 : (1,2), 4 : (2,2), 16 : (4,4)}] *)
Definition axmap : list (Z * (nat * nat)) :=
  [(1, (1%nat, 1%nat)); (2, (1%nat, 2%nat)); (4, (2%nat, 2%nat));
   (16, (4%nat, 4%nat))].

(** [d[k]] on a dict given by its items. *)
Fixpoint getitem {V : Type} (d : list (Z * V)) (k : Z) : outcome V :=
  match d with
  | [] => Raise KeyError
  | (k', v) :: d' => if k' =? k then Ok v else getitem d' k
  end.

(** The 2-D array of subplot handles of an [nrows] by [ncols] grid whose
    first handle is [base]. *)
Definition grid (base nrows ncols : nat) : list (list handle) :=
  map (fun r => map (fun c => (base + r * ncols + c)%nat) (seq 0 ncols)) (seq 0 nrows).

(** [axes.flatten()]: row-major (numpy's default order). *)
Definition flatten {A : Type} (a : list (list A)) : list A := List.concat a.

(** [enumerate(l)] *)
Definition enumerate {A : Type} (l : list A) : list (nat * A) :=
  combine (seq 0 (List.length l)) l.

(** ** The argument parser

    [Argparse] embeds the part of Python's [argparse] that the script's
    thirteen [add_argument] calls rely on.  Covered spellings: every
    option written with one of its declared flags, its values as
    separate tokens.  A token that starts with [-] and is neither a
    declared flag nor a negative number (abbreviated flags, [--flag=value],
    [-bVALUE], [--]) is outside the fragment: [parse] answers [Unmodelled].
    Numerals are decimals ([int]: digits with an optional sign; [float]:
    digits with an optional sign, point and exponent); any other numeral
    spelling ([inf], [nan], surrounding blanks, ...) is [Unmodelled] as
    well. *)

Module Argparse.

Inductive value : Type :=
| VNone
| VStr (s : string)
| VInt (z : Z)
| VFloat (x : float)
| VList (l : list string).

(** [type=]: absent, [int] or [float]. *)
Inductive conv : Type := AsStr | AsInt | AsFloat.
(** [nargs=]: absent or ["*"]. *)
Inductive arity : Type := Single | ZeroOrMore.
Inductive action : Type := Store | Help.

Record argument : Type := mkArg {
  arg_flags    : list string;
  arg_dest     : string;
  arg_action   : action;
  arg_required : bool;
  arg_nargs    : arity;
  arg_type     : conv;
  arg_default  : value;
  arg_choices  : option (list Z)
}.

Definition namespace : Type := list (string * value).

Fixpoint getattr (ns : namespace) (name : string) : option value :=
  match ns with
  | [] => None
  | (n, v) :: ns' => if String.eqb n name then Some v else getattr ns' name
  end.

Fixpoint setattr (ns : namespace) (name : string) (v : value) : namespace :=
  match ns with
  | [] => [(name, v)]
  | (n, v') :: ns' =>
      if String.eqb n name then (n, v) :: ns' else (n, v') :: setattr ns' name v
  end.

(** *** Numerals *)

Definition digit (c : ascii) : option Z :=
  let n := Z.of_N (N_of_ascii c) in
  if (48 <=? n) && (n <=? 57) then Some (n - 48) else None.

(** Value and number of digits of a digit string read after [acc]. *)
Fixpoint digits (s : string) (acc : Z) (len : nat) : option (Z * nat) :=
  match s with
  | EmptyString => Some (acc, len)
  | String c s' =>
      match digit c with
      | Some d => digits s' (10 * acc + d) (S len)
      | None => None
      end
  end.

Definition natural (s : string) : option Z :=
  match digits s 0 0%nat with
  | Some (v, S _) => Some v
  | _ => None
  end.

Definition signed {A : Type} (unsigned : string -> option A) (neg : A -> A)
    (s : string) : option A :=
  match s with
  | String "-"%char s' => option_map neg (unsigned s')
  | String "+"%char s' => unsigned s'
  | _ => unsigned s
  end.

(** [int(s)] on a plain decimal numeral. *)
Definition parse_int : string -> option Z := signed natural Z.opp.

(** Splits at the first ["."]. *)
Fixpoint split_dot (s : string) : string * option string :=
  match s with
  | EmptyString => (EmptyString, None)
  | String "."%char s' => (EmptyString, Some s')
  | String c s' => let '(a, b) := split_dot s' in (String c a, b)
  end.

(** Splits at the first [e] or [E]. *)
Fixpoint split_exp (s : string) : string * option string :=
  match s with
  | EmptyString => (EmptyString, None)
  | String "e"%char s' | String "E"%char s' => (EmptyString, Some s')
  | String c s' => let '(a, b) := split_exp s' in (String c a, b)
  end.

(** The digits of a numeral without exponent, as [(m, e)] standing for
    [m * 10^e]: digits, or digits around one ["."] with a digit on at
    least one side. *)
Definition mantissa (s : string) : option (Z * Z) :=
  match split_dot s with
  | (ip, None) => option_map (fun v => (v, 0)) (natural ip)
  | (ip, Some fp) =>
      match digits ip 0 0%nat, digits fp 0 0%nat with
      | Some (i, ni), Some (f, nf) =>
          if (ni + nf =? 0)%nat then None
          else Some (i * 10 ^ Z.of_nat nf + f, - Z.of_nat nf)
      | _, _ => None
      end
  end.

(** An unsigned decimal numeral with an optional exponent, as [(m, e)]
    standing for [m * 10^e]. *)
Definition unsigned_decimal (s : string) : option (Z * Z) :=
  match split_exp s with
  | (ms, None) => mantissa ms
  | (ms, Some es) =>
      match mantissa ms, parse_int es with
      | Some (m, e), Some x => Some (m, e + x)
      | _, _ => None
      end
  end.

(** The binary64 number nearest to [m * 10^e]. *)
Definition decimal_value (d : Z * Z) : float :=
  let '(m, e) := d in
  if 0 <=? e then Py.nearest (m * 10 ^ e) 1 else Py.nearest m (10 ^ (- e)).

(** [float(s)] on a decimal numeral: the nearest binary64 number (an
    infinity beyond the range, a signed zero below it). *)
Definition parse_float : string -> option float :=
  signed (fun s => option_map decimal_value (unsigned_decimal s)) PrimFloat.opp.

(** argparse's negative-number pattern [^-\d+$|^-\d*\.\d+$]. *)
Definition negative_number (s : string) : bool :=
  match s with
  | String "-"%char s' =>
      match split_dot s' with
      | (ip, None) => match natural ip with Some _ => true | None => false end
      | (ip, Some fp) =>
          match digits ip 0 0%nat, natural fp with
          | Some _, Some _ => true
          | _, _ => false
          end
      end
  | _ => false
  end.

(** *** Tokens *)

Inductive token : Type :=
| Flag (a : argument)
| Word (s : string)
| Outside.

Definition has_flag (s : string) (a : argument) : bool :=
  existsb (String.eqb s) (arg_flags a).

Definition classify (p : list argument) (s : string) : token :=
  match find (has_flag s) p with
  | Some a => Flag a
  | None =>
      match s with
      | String "-"%char EmptyString => Word s
      | String "-"%char _ => if negative_number s then Word s else Outside
      | _ => Word s
      end
  end.

Definition within (t : token) : bool :=
  match t with Outside => false | _ => true end.

(** *** Conversion and storing *)

(** argparse reports every usage error through [parser.error], which
    exits with status 2. *)
Definition usage_error {A : Type} : outcome A := Raise (SystemExit 2).

Definition convert (a : argument) (s : string) : outcome value :=
  match arg_type a with
  | AsStr => Ok (VStr s)
  | AsInt => match parse_int s with Some z => Ok (VInt z) | None => Unmodelled end
  | AsFloat => match parse_float s with Some x => Ok (VFloat x) | None => Unmodelled end
  end.

Definition mem (z : Z) (l : list Z) : bool := existsb (Z.eqb z) l.

Definition check_choices (a : argument) (v : value) : outcome value :=
  match arg_choices a, v with
  | Some cs, VInt z => if mem z cs then Ok v else usage_error
  | Some cs, _ => usage_error
  | None, _ => Ok v
  end.

(** The parser between two tokens: the namespace, the destinations
    given so far, the [nargs="*"] option still collecting words (with
    the words collected, latest first), the [nargs=None] option still
    waiting for its word, and whether stray words were met. *)
Record pstate : Type := mkP {
  p_ns        : namespace;
  p_seen      : list string;
  p_collect   : option (argument * list string);
  p_expect    : option argument;
  p_extras    : bool
}.

Definition store (a : argument) (v : value) (st : pstate) : pstate :=
  mkP (setattr (p_ns st) (arg_dest a) v) (arg_dest a :: p_seen st)
      None None (p_extras st).

(** Ends the option being read, if any. *)
Definition close (st : pstate) : outcome pstate :=
  match p_expect st, p_collect st with
  | Some _, _ => usage_error
  | None, Some (a, ws) => Ok (store a (VList (rev ws)) st)
  | None, None => Ok st
  end.

Definition step (st : pstate) (t : token) : outcome pstate :=
  match t with
  | Outside => Unmodelled
  | Flag a =>
      st' <- close st ;;
      match arg_action a with
      | Help => Raise (SystemExit 0)
      | Store =>
          match arg_nargs a with
          | Single =>
              Ok (mkP (p_ns st') (p_seen st') None (Some a) (p_extras st'))
          | ZeroOrMore =>
              Ok (mkP (p_ns st') (p_seen st') (Some (a, [])) None (p_extras st'))
          end
      end
  | Word s =>
      match p_expect st, p_collect st with
      | Some a, _ =>
          v <- convert a s ;; v' <- check_choices a v ;; Ok (store a v' st)
      | None, Some (a, ws) =>
          Ok (mkP (p_ns st) (p_seen st) (Some (a, s :: ws)) None (p_extras st))
      | None, None =>
          Ok (mkP (p_ns st) (p_seen st) None None true)
      end
  end.

Fixpoint steps (st : pstate) (ts : list token) : outcome pstate :=
  match ts with
  | [] => Ok st
  | t :: ts' => st' <- step st t ;; steps st' ts'
  end.

Definition defaults (p : list argument) : namespace :=
  fold_left
    (fun ns a => match arg_action a with
                 | Store => setattr ns (arg_dest a) (arg_default a)
                 | Help => ns
                 end)
    p [].

Definition missing (p : list argument) (seen : list string) : bool :=
  existsb (fun a => arg_required a
                    && negb (existsb (String.eqb (arg_dest a)) seen)) p.

(** [parser.parse_args(argv)] as a namespace. *)
Definition parse (p : list argument) (argv : list string) : outcome namespace :=
  let ts := map (classify p) argv in
  if forallb within ts then
    st <- steps (mkP (defaults p) [] None None false) ts ;;
    st' <- close st ;;
    if missing p (p_seen st') then usage_error
    else if p_extras st' then usage_error
    else Ok (p_ns st')
  else Unmodelled.

End Argparse.

(** ** The script's parser (lines 7 to 34)

    [argparse] adds [-h/--help] by itself.  The default of [--bandwidth]
    is the [int] [1080]: [type=float] converts command-line strings only.
    The script uses the bandwidth in float arithmetic only (numpy and
    matplotlib convert it), so [args] holds it as the float it converts
    to. *)

Definition parser : list Argparse.argument :=
  let arg := Argparse.mkArg in
  [ arg ["-h"; "--help"] "help" Argparse.Help false Argparse.Single
        Argparse.AsStr Argparse.VNone None;
    arg ["-i"; "--ip"] "ip" Argparse.Store true Argparse.Single
        Argparse.AsStr Argparse.VNone None;
    arg ["-b"; "--bof"] "boffile" Argparse.Store false Argparse.Single
        Argparse.AsStr Argparse.VNone None;
    arg ["-r"; "--rver"] "rver" Argparse.Store false Argparse.Single
        Argparse.AsInt (Argparse.VInt 2) (Some rver_choices);
    arg ["-bn"; "--bramnames"] "bramnames" Argparse.Store false Argparse.ZeroOrMore
        Argparse.AsStr Argparse.VNone None;
    arg ["-ns"; "--nspecs"] "nspecs" Argparse.Store false Argparse.Single
        Argparse.AsInt (Argparse.VInt 2) (Some nspecs_choices);
    arg ["-dt"; "--dtype"] "dtype" Argparse.Store false Argparse.Single
        Argparse.AsStr (Argparse.VStr ">i8") None;
    arg ["-aw"; "--addrwidth"] "awidth" Argparse.Store false Argparse.Single
        Argparse.AsInt (Argparse.VInt 9) None;
    arg ["-dw"; "--datawidth"] "dwidth" Argparse.Store false Argparse.Single
        Argparse.AsInt (Argparse.VInt 64) None;
    arg ["-bw"; "--bandwidth"] "bandwidth" Argparse.Store false Argparse.Single
        Argparse.AsFloat (Argparse.VInt 1080) None;
    arg ["--nbits"] "nbits" Argparse.Store false Argparse.Single
        Argparse.AsInt (Argparse.VInt 8) None;
    arg ["-cr"; "--countreg"] "count_reg" Argparse.Store false Argparse.Single
        Argparse.AsStr (Argparse.VStr "cnt_rst") None;
    arg ["-ar"; "--accreg"] "acc_reg" Argparse.Store false Argparse.Single
        Argparse.AsStr (Argparse.VStr "acc_len") None;
    arg ["-al"; "--acclen"] "acclen" Argparse.Store false Argparse.Single
        Argparse.AsInt (Argparse.VInt (2 ^ 16)) None ].

(** Reading the attributes of the namespace at the types the script uses
    them at.  A namespace produced by [parser] always has them; any other
    shape is outside the embedding. *)
Module Attr.
Import Argparse.

Definition str (ns : namespace) (n : string) : outcome string :=
  match getattr ns n with Some (VStr s) => Ok s | _ => Unmodelled end.

Definition opt_str (ns : namespace) (n : string) : outcome (option string) :=
  match getattr ns n with
  | Some (VStr s) => Ok (Some s)
  | Some VNone => Ok None
  | _ => Unmodelled
  end.

Definition int (ns : namespace) (n : string) : outcome Z :=
  match getattr ns n with Some (VInt z) => Ok z | _ => Unmodelled end.

Definition number (ns : namespace) (n : string) : outcome float :=
  match getattr ns n with
  | Some (VInt z) => Ok (Py.float_of_int z)
  | Some (VFloat x) => Ok x
  | _ => Unmodelled
  end.

Definition opt_list (ns : namespace) (n : string) : outcome (option (list string)) :=
  match getattr ns n with
  | Some (VList l) => Ok (Some l)
  | Some VNone => Ok None
  | _ => Unmodelled
  end.
End Attr.

Definition to_args (ns : Argparse.namespace) : outcome args :=
  a_ip <- Attr.str ns "ip" ;;
  a_bof <- Attr.opt_str ns "boffile" ;;
  a_rver <- Attr.int ns "rver" ;;
  a_bn <- Attr.opt_list ns "bramnames" ;;
  a_ns <- Attr.int ns "nspecs" ;;
  a_dt <- Attr.str ns "dtype" ;;
  a_aw <- Attr.int ns "awidth" ;;
  a_dw <- Attr.int ns "dwidth" ;;
  a_bw <- Attr.number ns "bandwidth" ;;
  a_nb <- Attr.int ns "nbits" ;;
  a_cr <- Attr.str ns "count_reg" ;;
  a_ar <- Attr.str ns "acc_reg" ;;
  a_al <- Attr.int ns "acclen" ;;
  Ok (mkArgs a_ip a_bof a_rver a_bn a_ns a_dt a_aw a_dw a_bw a_nb a_cr a_ar a_al).

(** [args = parser.parse_args()] on the command line [argv] (without the
    program name). *)
Definition parse_args (argv : list string) : outcome args :=
  ns <- Argparse.parse parser argv ;; to_args ns.

(** ** The collaborators

    [calandigital] (initialisation, interleaved reads, scaling), the
    instrument behind the handle and numpy's [log10] are not part of the
    script.  They are an interface here: [world] is the state of the
    instrument and of the link to it, threaded through the calls that
    touch it. *)

Class Extern : Type := {
  world    : Type;
  roach    : Type;
  specdata : Type;
  (** [cd.initialize_roach(ip, boffile=..., rver=...)] *)
  initialize_roach : string -> option string -> Z -> world -> roach * world;
  (** [roach.write_int(reg, value)] *)
  write_int : roach -> string -> Z -> world -> world;
  (** [cd.read_interleave_data(roach, brams, awidth, dwidth, dtype)] *)
  read_interleave_data :
    roach -> list string -> Z -> Z -> string -> world -> specdata * world;
  (** [cd.scale_and_dBFS_specdata(data, acclen, nbits, nchannels)] *)
  scale_and_dBFS_specdata : specdata -> Z -> Z -> Z -> specdata;
  (** [np.log10(n)] of an [int]: a [float64] *)
  np_log10 : Z -> float
}.

Section Script.

Context {ext : Extern}.

(** *** The call log *)

Inductive event : Type :=
| InitializeRoach (ip_addr : string) (bof : option string) (version : Z)
| Print (s : string)
| WriteInt (r : roach) (reg : string) (v : Z)
| ReadInterleaveData (r : roach) (brams : list string) (aw dw : Z) (dt : string)
| ScaleAndDBFS (data : specdata) (acc nb nch : Z)
| SetData (line : handle) (x : list float) (y : specdata)
| FuncAnimation (blit : bool)
| Show.

(** *** The objects the script works on *)

(** A plotted line: the subplot that owns it, its [animated] flag and
    its data ([None] for the empty data it is created with). *)
Record line_obj : Type := mkLine {
  ln_axes     : handle;
  ln_animated : bool;
  ln_data     : option (list float * specdata)
}.

Record heap : Type := mkHeap {
  h_world : world;
  h_log   : list event;
  h_fig   : option figure;
  h_axes  : list axes_obj;
  h_lines : list line_obj
}.

Definition empty_heap (w : world) : heap := mkHeap w [] None [] [].

Definition log (e : event) (h : heap) : heap :=
  mkHeap (h_world h) (h_log h ++ [e]) (h_fig h) (h_axes h) (h_lines h).

Definition with_world (w : world) (h : heap) : heap :=
  mkHeap w (h_log h) (h_fig h) (h_axes h) (h_lines h).

Definition with_axes (ax : handle) (f : axes_obj -> axes_obj) (h : heap) : heap :=
  mkHeap (h_world h) (h_log h) (h_fig h) (update ax f (h_axes h)) (h_lines h).

Definition with_line (ln : handle) (f : line_obj -> line_obj) (h : heap) : heap :=
  mkHeap (h_world h) (h_log h) (h_fig h) (h_axes h) (update ln f (h_lines h)).

(** *** Calls to the collaborators *)

Definition call_initialize_roach (i : string) (b : option string) (v : Z)
    (h : heap) : roach * heap :=
  let '(r, w) := initialize_roach i b v (h_world h) in
  (r, with_world w (log (InitializeRoach i b v) h)).

Definition call_print (s : string) (h : heap) : heap := log (Print s) h.

Definition call_write_int (r : roach) (reg : string) (v : Z) (h : heap) : heap :=
  with_world (write_int r reg v (h_world h)) (log (WriteInt r reg v) h).

Definition call_read_interleave_data (r : roach) (brams : list string)
    (aw dw : Z) (dt : string) (h : heap) : specdata * heap :=
  let '(d, w) := read_interleave_data r brams aw dw dt (h_world h) in
  (d, with_world w (log (ReadInterleaveData r brams aw dw dt) h)).

Definition call_scale_and_dBFS_specdata (d : specdata) (acc nb nch : Z)
    (h : heap) : specdata * heap :=
  (scale_and_dBFS_specdata d acc nb nch, log (ScaleAndDBFS d acc nb nch) h).

(** *** matplotlib calls *)

(** [ax.set_xlim(left, right)] and [ax.set_ylim(bottom, top)]: the call
    is recorded with its arguments. *)
Definition set_xlim (v : float * float) (a : axes_obj) : axes_obj :=
  mkAxes (ax_row a) (ax_col a) (Some v) (ax_ylim_asked a) (ax_xlabel a)
         (ax_ylabel a) (ax_title a) (ax_grid a) (ax_lines a).
Definition set_ylim (v : float * float) (a : axes_obj) : axes_obj :=
  mkAxes (ax_row a) (ax_col a) (ax_xlim_asked a) (Some v) (ax_xlabel a)
         (ax_ylabel a) (ax_title a) (ax_grid a) (ax_lines a).
Definition set_xlabel (s : string) (a : axes_obj) : axes_obj :=
  mkAxes (ax_row a) (ax_col a) (ax_xlim_asked a) (ax_ylim_asked a) s (ax_ylabel a)
         (ax_title a) (ax_grid a) (ax_lines a).
Definition set_ylabel (s : string) (a : axes_obj) : axes_obj :=
  mkAxes (ax_row a) (ax_col a) (ax_xlim_asked a) (ax_ylim_asked a) (ax_xlabel a) s
         (ax_title a) (ax_grid a) (ax_lines a).
Definition set_title (s : string) (a : axes_obj) : axes_obj :=
  mkAxes (ax_row a) (ax_col a) (ax_xlim_asked a) (ax_ylim_asked a) (ax_xlabel a)
         (ax_ylabel a) s (ax_grid a) (ax_lines a).
Definition grid_on (a : axes_obj) : axes_obj :=
  mkAxes (ax_row a) (ax_col a) (ax_xlim_asked a) (ax_ylim_asked a) (ax_xlabel a)
         (ax_ylabel a) (ax_title a) true (ax_lines a).
Definition add_line (ln : handle) (a : axes_obj) : axes_obj :=
  mkAxes (ax_row a) (ax_col a) (ax_xlim_asked a) (ax_ylim_asked a) (ax_xlabel a)
         (ax_ylabel a) (ax_title a) (ax_grid a) (ax_lines a ++ [ln]).

(** [plt.subplots(nrows, ncols, squeeze=False)]: a new figure and the
    2-D array of its subplots. *)
Definition subplots (nrows ncols : nat) (h : heap) : list (list handle) * heap :=
  let base := List.length (h_axes h) in
  let fresh :=
    flat_map (fun r => map (fun c => new_axes r c) (seq 0 ncols)) (seq 0 nrows) in
  (grid base nrows ncols,
   mkHeap (h_world h) (h_log h) (Some (mkFigure nrows ncols false))
          (h_axes h ++ fresh) (h_lines h)).

(** [fig.set_tight_layout(True)] *)
Definition set_tight_layout (b : bool) (h : heap) : heap :=
  mkHeap (h_world h) (h_log h)
         (option_map (fun f => mkFigure (fig_nrows f) (fig_ncols f) b) (h_fig h))
         (h_axes h) (h_lines h).

(** [line, = ax.plot([], [], animated=...)] *)
Definition plot (ax : handle) (animated : bool) (h : heap) : handle * heap :=
  let ln := List.length (h_lines h) in
  (ln,
   with_axes ax (add_line ln)
     (mkHeap (h_world h) (h_log h) (h_fig h) (h_axes h)
             (h_lines h ++ [mkLine ax animated None]))).

(** [line.set_data(x, y)] *)
Definition set_data (ln : handle) (x : list float) (y : specdata) (h : heap) : heap :=
  with_line ln (fun l => mkLine (ln_axes l) (ln_animated l) (Some (x, y)))
    (log (SetData ln x y) h).

(** *** [create_figure] (lines 69 to 90) *)

(** The body of [for i, ax in enumerate(axes.flatten())], with [lines]
    as accumulated so far. *)
Fixpoint figure_loop (bw dBFS : float) (items : list (nat * handle))
    (lines : list handle) (h : heap) : list handle * heap :=
  match items with
  | [] => (lines, h)
  | (i, ax) :: rest =>
      let h := with_axes ax (set_xlim (0, bw)%float) h in
      let h := with_axes ax (set_ylim (- dBFS - 2, 0)%float) h in
      let h := with_axes ax (set_xlabel "Frequency [MHz]") h in
      let h := with_axes ax (set_ylabel "Power [dBFS]") h in
      let h := with_axes ax (set_title ("In " ++ Py.str i)%string) h in
      let h := with_axes ax grid_on h in
      let '(line, h) := plot ax true h in
      figure_loop bw dBFS rest (lines ++ [line]) h
  end.

Definition create_figure (ns : Z) (bw dBFS : float) (h : heap)
    : outcome (list handle) * heap :=
  match getitem axmap ns with
  | Ok (nrows, ncols) =>
      let '(axes, h) := subplots nrows ncols h in
      let h := set_tight_layout true h in
      let '(lines, h) := figure_loop bw dBFS (enumerate (flatten axes)) [] h in
      (Ok lines, h)
  | Raise e => (Raise e, h)
  | Unmodelled => (Unmodelled, h)
  end.

(** *** [main] up to the animation (lines 37 to 54) *)

(** [6.02*args.nbits + 1.76 + 10*np.log10(nchannels)], the right-hand
    side of line 46, evaluated as Python does: the literals are the
    binary64 numbers nearest to them, the [int]s are converted, every
    operation rounds. *)
Definition full_scale (a : args) (nchannels : Z) : float :=
  (6.02 * Py.float_of_int (nbits a) + 1.76
   + Py.float_of_int 10 * np_log10 nchannels)%float.

(** [dBFS] as the script can go on with it.  Without a channel numpy's
    [log10] answers [-inf], and line 81 then asks matplotlib for an
    infinite y-range, which some versions of it refuse and others
    accept: the embedding stops there. *)
Definition dBFS_of (a : args) (nchannels : Z) : outcome float :=
  if nchannels <=? 0 then Unmodelled else Ok (full_scale a nchannels).

(** The variables of [main] that [animate] closes over. *)
Record env : Type := mkEnv {
  e_args           : args;
  e_roach          : roach;
  e_specbrams_list : list (list string);
  e_nchannels      : Z;
  e_freqs          : list float;
  e_lines          : list handle
}.

(** Lines 50 to 54. *)
Definition set_registers (a : args) (r : roach) (h : heap) : heap :=
  let h := call_print "Setting and resetting registers..." h in
  let h := call_write_int r (acc_reg a) (acclen a) h in
  let h := call_write_int r (count_reg a) 1 h in
  let h := call_write_int r (count_reg a) 0 h in
  call_print "done" h.

Definition setup (a : args) (h : heap) : outcome env * heap :=
  let '(r, h) := call_initialize_roach (ip a) (boffile a) (rver a) h in
  match derive a with
  | Ok (nbrams, specbrams_list, nchannels, freqs) =>
      match dBFS_of a nchannels with
      | Ok dBFS =>
          match create_figure (nspecs a) (bandwidth a) dBFS h with
          | (Ok lines, h) =>
              let h := set_registers a r h in
              (Ok (mkEnv a r specbrams_list nchannels freqs lines), h)
          | (Raise e, h) => (Raise e, h)
          | (Unmodelled, h) => (Unmodelled, h)
          end
      | Raise e => (Raise e, h)
      | Unmodelled => (Unmodelled, h)
      end
  | Raise e => (Raise e, h)
  | Unmodelled => (Unmodelled, h)
  end.

(** *** [animate] (lines 56 to 64) *)

(** The body of [for line, specbrams in zip(lines, specbrams_list)]. *)
Definition animate_pair (c : env) (p : handle * list string) (h : heap) : heap :=
  let '(line, specbrams) := p in
  let '(specdata, h) :=
    call_read_interleave_data (e_roach c) specbrams (awidth (e_args c))
      (dwidth (e_args c)) (dtype (e_args c)) h in
  let '(specdata, h) :=
    call_scale_and_dBFS_specdata specdata (acclen (e_args c))
      (nbits (e_args c)) (e_nchannels c) h in
  set_data line (e_freqs c) specdata h.

Fixpoint animate_loop (c : env) (pairs : list (handle * list string))
    (h : heap) : heap :=
  match pairs with
  | [] => h
  | p :: rest => animate_loop c rest (animate_pair c p h)
  end.

(** The state the animation runs on: the cells of [main]'s variables and
    the objects. *)
Record frame_state : Type := mkFrame {
  cells : env;
  hp    : heap
}.

(** One call [animate(_)]: the returned lines and the state it leaves. *)
Definition animate (fs : frame_state) : list handle * frame_state :=
  let c := cells fs in
  let h := animate_loop c (combine (e_lines c) (e_specbrams_list c)) (hp fs) in
  (e_lines c, mkFrame c h).

(** [k] ticks of the animation driver. *)
Fixpoint ticks (k : nat) (fs : frame_state) : frame_state :=
  match k with
  | O => fs
  | S k' => ticks k' (snd (animate fs))
  end.

(** Lines 66 and 67: the animation is created and [plt.show()] runs the
    event loop, which calls [animate] on every tick; [k] is the number
    of ticks before the window is closed. *)
Definition show_animation (k : nat) (c : env) (h : heap) : frame_state :=
  let h := log (FuncAnimation true) h in
  let h := log Show h in
  ticks k (mkFrame c h).

(** *** [main] *)

(** [main] once the command line is parsed. *)
Definition run (a : args) (k : nat) (w : world) : outcome env * heap :=
  match setup a (empty_heap w) with
  | (Ok c, h) => let fs := show_animation k c h in (Ok (cells fs), hp fs)
  | r => r
  end.

Definition main (argv : list string) (k : nat) (w : world)
    : outcome env * heap :=
  match parse_args argv with
  | Ok a => run a k w
  | Raise e => (Raise e, empty_heap w)
  | Unmodelled => (Unmodelled, empty_heap w)
  end.

End Script.

Arguments event : clear implicits.
Arguments heap : clear implicits.
Arguments env : clear implicits.
Arguments frame_state : clear implicits.

(** ** A bench instrument

    A small instance of the collaborators, used to run the script on
    concrete command lines: the instrument counts the reads it served and
    keeps its registers; a read of [brams] returns one sample per block,
    numbered by the read; scaling subtracts the bit depth; the logarithm
    is the number of binary digits below the leading one, scaled by
    [log10(2)]. *)

Module Bench.

Record instrument : Type := mkInstrument {
  reads     : Z;
  registers : list (string * Z)
}.

Definition power_on : instrument := mkInstrument 0 [].

#[export] Instance bench : Extern := {|
  world := instrument;
  roach := string;
  specdata := list Z;
  initialize_roach := fun i _ _ w => (i, w);
  write_int := fun _ reg v w => mkInstrument (reads w) ((reg, v) :: registers w);
  read_interleave_data := fun _ brams _ _ _ w =>
    (map (fun _ => reads w) brams, mkInstrument (reads w + 1) (registers w));
  scale_and_dBFS_specdata := fun d _ nb _ => map (fun x => x - nb) d;
  np_log10 := fun n => (Py.float_of_int (Z.log2 n) * 0.3010299956639812)%float
|}.

End Bench.

(** * Specification-side definitions *)

(** The [n] consecutive chunks of [k] elements at the front of [l]: what
    the specification calls the contiguous slices, in input order. *)
Definition chunks {A : Type} (k n : nat) (l : list A) : list (list A) :=
  map (fun i => firstn k (skipn (i * k) l)) (seq 0 n).

(** The number that a finite binary64 value stands for. *)
Definition exact (x : float) : option Q :=
  match Prim2SF x with
  | S754_zero _ => Some 0%Q
  | S754_finite s m e =>
      Some ((if s then - (1) else 1) * inject_Z (Z.pos m) * (2 # 1) ^ e)%Q
  | _ => None
  end.









Definition args_one_name : args :=
  mkArgs "roach" None 2 (Some ["dout0"]) 2 ">i8" 9 64 1080 8
         "cnt_rst" "acc_len" 65536.



(** The subplot at place [i] of the row-major traversal of a grid with
    [ncols] columns, once [create_figure] has set it up and attached the
    line [i] to it. *)
Definition subplot_done (bw dBFS : float) (ncols i : nat) : axes_obj :=
  mkAxes (i / ncols) (i mod ncols) (Some (0, bw)%float)
         (Some (- dBFS - 2, 0)%float)
         "Frequency [MHz]" "Power [dBFS]" ("In " ++ Py.str i)%string true [i].

(** The line that [ax.plot([], [], animated=True)] attaches to subplot [i]. *)
Definition line_new {ext : Extern} (i : nat) : line_obj := mkLine i true None.



Definition is_read {ext : Extern} (e : event ext) : bool :=
  match e with ReadInterleaveData _ _ _ _ _ => true | _ => false end.

Definition frame_event {ext : Extern} (e : event ext) : Prop :=
  match e with
  | ReadInterleaveData _ _ _ _ _ | ScaleAndDBFS _ _ _ _ | SetData _ _ _ => True
  | _ => False
  end.

(** What one tick of the frame callback is specified to do, pair by
    pair: starting from the instrument state [w], the calls it makes for
    the (line, block group) pairs, in order, and the instrument state it
    leaves.  For each pair: the interleaved read of that group, the
    scaling of what was read, and the assignment of the scaled data,
    paired with the frequency axis, to the line. *)
Inductive tick_calls {ext : Extern} (c : env ext)
  : world -> list (handle * list string) -> list (event ext) -> world -> Prop :=
| tick_done (w : world) : tick_calls c w [] [] w
| tick_pair (w w1 w2 : world) (line : handle) (brams : list string)
    (d : specdata) (rest : list (handle * list string)) (evs : list (event ext)) :
    read_interleave_data (e_roach c) brams (awidth (e_args c))
      (dwidth (e_args c)) (dtype (e_args c)) w = (d, w1) ->
    tick_calls c w1 rest evs w2 ->
    tick_calls c w ((line, brams) :: rest)
      (ReadInterleaveData (e_roach c) brams (awidth (e_args c))
         (dwidth (e_args c)) (dtype (e_args c))
       :: ScaleAndDBFS d (acclen (e_args c)) (nbits (e_args c)) (e_nchannels c)
       :: SetData line (e_freqs c)
            (scale_and_dBFS_specdata d (acclen (e_args c)) (nbits (e_args c))
               (e_nchannels c))
       :: evs)
      w2.

(** The calls logged by the tick that starts in [fs]. *)
Definition tick_log {ext : Extern} (fs : frame_state ext) : list (event ext) :=
  skipn (List.length (h_log (hp fs))) (h_log (hp (snd (animate fs)))).

(** The line [ln] shows data over the axis [x]. *)
Definition plotted_over {ext : Extern} (x : list float) (ln : line_obj) : Prop :=
  exists y, ln_data ln = Some (x, y).


(** The invariant of the parsing loop: the namespace holds a spectra
    count among the choices, the option collecting words is not the one
    that sets it, and the option waiting for its word is a declared one. *)
Record good (st : Argparse.pstate) : Prop := {
  good_nspecs  : exists z, Argparse.getattr (Argparse.p_ns st) "nspecs"
                           = Some (Argparse.VInt z)
                           /\ In z nspecs_choices;
  good_collect : forall a ws, Argparse.p_collect st = Some (a, ws) ->
                              Argparse.arg_dest a <> "nspecs";
  good_expect  : forall a, Argparse.p_expect st = Some a -> In a parser
}.

Definition declared (t : Argparse.token) : Prop :=
  match t with Argparse.Flag a => In a parser | _ => True end.

Definition argv_four_names : list string :=
  ["-i"; "roach"; "-bn"; "dout0"; "dout1"; "dout2"; "dout3"].
Definition args_four_names : args :=
  mkArgs "roach" None 2 (Some ["dout0"; "dout1"; "dout2"; "dout3"]) 2 ">i8"
         9 64 1080 8 "cnt_rst" "acc_len" 65536.
Definition args_three_names : args :=
  mkArgs "roach" None 2 (Some ["dout0"; "dout1"; "dout2"]) 2 ">i8"
         9 64 1080 8 "cnt_rst" "acc_len" 65536.

(** What the body of the loop of [create_figure] makes of the subplot
    [a] at place [i] of the traversal, [ln] being the line it attaches. *)
Definition finish (bw dBFS : float) (i : nat) (ln : handle) (a : axes_obj) : axes_obj :=
  add_line ln
    (grid_on
       (set_title ("In " ++ Py.str i)%string
          (set_ylabel "Power [dBFS]"
             (set_xlabel "Frequency [MHz]"
                (set_ylim (- dBFS - 2, 0)%float (set_xlim (0, bw)%float a)))))).

(** The subplots [todo], traversed from place [i] on, each with its own
    new line, the first of which is [ln]. *)
Fixpoint finish_all (bw dBFS : float) (i : nat) (ln : handle) (todo : list axes_obj)
    : list axes_obj :=
  match todo with
  | [] => []
  | a :: rest => finish bw dBFS i ln a :: finish_all bw dBFS (S i) (S ln) rest
  end.

(** The subplots [plt.subplots] creates, in the order of the traversal. *)
Definition fresh_axes (nrows ncols : nat) : list axes_obj :=
  flat_map (fun r => map (fun c => new_axes r c) (seq 0 ncols)) (seq 0 nrows).

(** ** Further specification-side definitions *)

(** While the command line is read, the option stored under [n] has not
    been met: the namespace holds [v] under [n], [n] is not among the
    destinations given, and no option stored under [n] is being read. *)
Record untouched (n : string) (v : option Argparse.value)
    (st : Argparse.pstate) : Prop := {
  un_value   : Argparse.getattr (Argparse.p_ns st) n = v;
  un_seen    : ~ In n (Argparse.p_seen st);
  un_collect : forall a ws, Argparse.p_collect st = Some (a, ws) ->
                            Argparse.arg_dest a <> n;
  un_expect  : forall a, Argparse.p_expect st = Some a ->
                         Argparse.arg_dest a <> n
}.

(** The token is not a flag of an option stored under [n]. *)
Definition not_flag_of (n : string) (t : Argparse.token) : Prop :=
  match t with Argparse.Flag a => Argparse.arg_dest a <> n | _ => True end.

(** While the command line is read, the namespace holds under [n] an
    integer among [cs]. *)
Record choice_kept (n : string) (cs : list Z) (st : Argparse.pstate) : Prop := {
  ck_value   : exists z, Argparse.getattr (Argparse.p_ns st) n
                         = Some (Argparse.VInt z) /\ In z cs;
  ck_collect : forall a ws, Argparse.p_collect st = Some (a, ws) ->
                            Argparse.arg_dest a <> n;
  ck_expect  : forall a, Argparse.p_expect st = Some a -> In a parser
}.

(** A command-line token that [argparse] takes as a plain word. *)
Definition is_word (s : string) : Prop :=
  Argparse.classify parser s = Argparse.Word s.

(** The configuration that the defaults give for the address [x]. *)
Definition default_args (x : string) : args :=
  mkArgs x None 2 None 2 ">i8" 9 64 1080 8 "cnt_rst" "acc_len" 65536.

(** A command-line token written in full: one of the declared flags, or
    no flag at all (it does not start with ["-"], or is ["-"] alone, or
    is a negative number).  Abbreviated flags, [--flag=value], a value
    glued to a short flag and ["--"] are not. *)
Definition spelled_out (s : string) : Prop :=
  Argparse.within (Argparse.classify parser s) = true.



(** Calls that initialise the device. *)
Definition is_initialize {ext : Extern} (e : event ext) : bool :=
  match e with InitializeRoach _ _ _ => true | _ => false end.

(** A frame state of the bench with one line and one group. *)
Definition bench_frame : frame_state Bench.bench :=
  mkFrame
    (mkEnv (ext := Bench.bench) args_four_names "roach" [["dout0"]] 4
           [0; 1]%float [0%nat])
    (mkHeap (ext := Bench.bench) Bench.power_on [] None []
            [mkLine (ext := Bench.bench) 0%nat true None]).

(** * Properties *)

(** ** The parser enforces the choices of [--nspecs] *)

Module ParserFacts.
Import Argparse.

Lemma getattr_setattr_same (ns : namespace) (n : string) (v : value) :
  getattr (setattr ns n v) n = Some v.
Proof.
  induction ns as [| [n' v'] ns IH]; simpl.
  - rewrite String.eqb_refl. reflexivity.
  - destruct (String.eqb n' n) eqn:E; simpl; rewrite E; [reflexivity | exact IH].
Qed.

Lemma getattr_setattr_other (ns : namespace) (n m : string) (v : value) :
  n <> m -> getattr (setattr ns n v) m = getattr ns m.
Proof.
  intros Hne. induction ns as [| [n' v'] ns IH]; simpl.
  - destruct (String.eqb_spec n m); [contradiction | reflexivity].
  - destruct (String.eqb_spec n' n) as [-> | Hn]; simpl.
    + destruct (String.eqb_spec n m); [contradiction | reflexivity].
    + destruct (String.eqb n' m); [reflexivity | exact IH].
Qed.

Lemma mem_In (z : Z) (l : list Z) : mem z l = true -> In z l.
Proof.
  unfold mem. intros H. apply existsb_exists in H.
  destruct H as [x [Hx E]]. apply Z.eqb_eq in E. subst x. exact Hx.
Qed.

(** Two facts read off the thirteen declarations. *)
Lemma only_bramnames_collects (a : argument) :
  In a parser -> arg_nargs a = ZeroOrMore -> arg_dest a <> "nspecs".
Proof.
  unfold parser. simpl. intros H Hn.
  repeat (destruct H as [<- | H]; [simpl in *; congruence |]).
  contradiction.
Qed.

Lemma nspecs_has_choices (a : argument) :
  In a parser -> arg_dest a = "nspecs" -> arg_choices a = Some nspecs_choices.
Proof.
  unfold parser. simpl. intros H Hd.
  repeat (destruct H as [<- | H]; [simpl in *; congruence |]).
  contradiction.
Qed.

Lemma classify_declared (s : string) (a : argument) :
  classify parser s = Flag a -> In a parser.
Proof.
  unfold classify. destruct (find (has_flag s) parser) as [a' |] eqn:E.
  - intros H. injection H as <-. apply find_some in E. tauto.
  - intros H. destruct s as [| c s']; [discriminate H |].
    destruct c as [[] [] [] [] [] [] [] []]; destruct s';
      try discriminate H;
      destruct (negative_number _); discriminate H.
Qed.

Lemma store_elsewhere_good (st : pstate) (a : argument) (v : value) :
  good st -> arg_dest a <> "nspecs" -> good (store a v st).
Proof.
  intros [[z [Hz Hin]] _ _] Hd. split; simpl.
  - exists z. rewrite getattr_setattr_other by exact Hd. auto.
  - discriminate.
  - discriminate.
Qed.

Lemma close_good (st st' : pstate) : good st -> close st = Ok st' -> good st'.
Proof.
  intros Hg. unfold close.
  destruct (p_expect st); [discriminate |].
  destruct (p_collect st) as [[a ws] |] eqn:E.
  - intros H. injection H as <-.
    apply store_elsewhere_good; [exact Hg |].
    eapply good_collect; eauto.
  - intros H. injection H as <-. exact Hg.
Qed.

Lemma step_good (st st' : pstate) (t : token) :
  good st -> declared t -> step st t = Ok st' -> good st'.
Proof.
  intros Hg Ht. destruct t as [a | s |]; simpl; [| | discriminate].
  - destruct (close st) as [st1 | |] eqn:Ec; simpl; try discriminate.
    pose proof (close_good _ _ Hg Ec) as [Hn1 _ _].
    destruct (arg_action a); [| discriminate].
    destruct (arg_nargs a) eqn:En; intros H; injection H as <-;
      split; simpl; try exact Hn1; try discriminate.
    + intros a' Ha'. injection Ha' as <-. exact Ht.
    + intros a' ws Ha'. injection Ha' as <- <-.
      apply only_bramnames_collects; assumption.
  - destruct (p_expect st) as [a |] eqn:Ee.
    + destruct (convert a s) as [v | |]; simpl; try discriminate.
      destruct (check_choices a v) as [v' | |] eqn:Ech; simpl; try discriminate.
      intros H. injection H as <-.
      destruct (string_dec (arg_dest a) "nspecs") as [Hd | Hd].
      * pose proof (nspecs_has_choices a (good_expect _ Hg _ Ee) Hd) as Hcs.
        unfold check_choices in Ech. rewrite Hcs in Ech.
        destruct v as [| | z | |]; try discriminate.
        destruct (mem z nspecs_choices) eqn:Em; [| discriminate].
        injection Ech as <-.
        split; cbn [store p_ns p_collect p_expect]; try discriminate.
        exists z. rewrite Hd, getattr_setattr_same.
        split; [reflexivity | apply mem_In; exact Em].
      * apply store_elsewhere_good; assumption.
    + destruct Hg as [Hn Hcol _].
      destruct (p_collect st) as [[a ws] |] eqn:Ecol; intros H;
        injection H as <-; split; simpl; try exact Hn; try discriminate.
      intros a' ws' Ha'. injection Ha' as <- _. eapply Hcol. reflexivity.
Qed.

Lemma steps_good (ts : list token) (st st' : pstate) :
  good st -> Forall declared ts -> steps st ts = Ok st' -> good st'.
Proof.
  revert st. induction ts as [| t ts IH]; intros st Hg Hts; simpl.
  - intros H. injection H as <-. exact Hg.
  - inversion Hts as [| ? ? Ht Hrest]; subst.
    destruct (step st t) as [st1 | |] eqn:E; simpl; try discriminate.
    apply IH; [eapply step_good; eauto | exact Hrest].
Qed.

Lemma parse_nspecs (argv : list string) (ns : namespace) :
  parse parser argv = Ok ns ->
  exists z, getattr ns "nspecs" = Some (VInt z) /\ In z nspecs_choices.
Proof.
  unfold parse. intros H.
  destruct (forallb within _); [| discriminate H].
  destruct (steps _ _) as [st | |] eqn:Es; cbn [bind] in H; try discriminate H.
  destruct (close st) as [st' | |] eqn:Ec; cbn [bind] in H; try discriminate H.
  destruct (missing parser (p_seen st')); [discriminate H |].
  destruct (p_extras st'); [discriminate H |].
  injection H as <-.
  apply good_nspecs. eapply close_good; [| exact Ec].
  eapply steps_good; [| | exact Es].
  - split; simpl; try discriminate.
    exists 2. split; [reflexivity | simpl; tauto].
  - apply Forall_forall. intros t Ht. apply in_map_iff in Ht.
    destruct Ht as [s [<- _]]. unfold declared.
    destruct (classify parser s) eqn:E; [| exact I | exact I].
    eapply classify_declared. exact E.
Qed.

End ParserFacts.

Ltac bind_ok H :=
  repeat match type of H with
         | bind ?m _ = Ok _ =>
             let E := fresh "E" in
             destruct m eqn:E; cbn [bind] in H; [| discriminate H | discriminate H]
         end.

Lemma to_args_nspecs (ns : Argparse.namespace) (a : args) :
  to_args ns = Ok a -> Attr.int ns "nspecs" = Ok (nspecs a).
Proof.
  unfold to_args. intros H. bind_ok H. injection H as <-. reflexivity.
Qed.

(** What [parse_args] returns has a spectra count among 1, 2, 4, 16. *)
Lemma parse_args_nspecs (argv : list string) (a : args) :
  parse_args argv = Ok a -> In (nspecs a) nspecs_choices.
Proof.
  unfold parse_args. intros H. bind_ok H.
  destruct (ParserFacts.parse_nspecs _ _ E) as [z [Hz Hin]].
  apply to_args_nspecs in H. unfold Attr.int in H. rewrite Hz in H.
  injection H as <-. exact Hin.
Qed.


(** ** Slices and groups *)


Lemma mapM_Ok {A B : Type} (f : A -> outcome B) (g : A -> B) (l : list A) :
  (forall x, In x l -> f x = Ok (g x)) -> mapM f l = Ok (map g l).
Proof.
  induction l as [| x l IH]; intros Hf; simpl.
  - reflexivity.
  - rewrite Hf by (left; reflexivity). simpl.
    rewrite IH by (intros y Hy; apply Hf; right; exact Hy).
    reflexivity.
Qed.

Lemma clip_inside (n i : Z) : 0 <= i <= n -> Py.clip n i = i.
Proof.
  intros H. unfold Py.clip.
  destruct (i <? 0) eqn:E; [apply Z.ltb_lt in E; lia | lia].
Qed.

(** A slice with both bounds inside the list is a [firstn] of a [skipn]. *)
Lemma slice_inside {A : Type} (l : list A) (i j : nat) :
  (i <= j <= List.length l)%nat ->
  Py.slice l (Z.of_nat i) (Z.of_nat j) = firstn (j - i) (skipn i l).
Proof.
  intros H. unfold Py.slice.
  rewrite !clip_inside by lia.
  replace (Z.to_nat (Z.of_nat j - Z.of_nat i)) with (j - i)%nat by lia.
  rewrite Nat2Z.id. reflexivity.
Qed.

Lemma slice_chunk {A : Type} (l : list A) (k i : nat) :
  (i * k + k <= List.length l)%nat ->
  Py.slice l (Z.of_nat i * Z.of_nat k) ((Z.of_nat i + 1) * Z.of_nat k)
  = firstn k (skipn (i * k) l).
Proof.
  intros H.
  replace (Z.of_nat i * Z.of_nat k) with (Z.of_nat (i * k)) by lia.
  replace ((Z.of_nat i + 1) * Z.of_nat k) with (Z.of_nat (i * k + k)) by lia.
  rewrite slice_inside by lia.
  f_equal. lia.
Qed.

Lemma chunks_length {A : Type} (k n : nat) (l : list A) :
  List.length (chunks k n l) = n.
Proof. unfold chunks. rewrite length_map, length_seq. reflexivity. Qed.

Lemma chunks_nth {A : Type} (k n : nat) (l : list A) (i : nat) :
  (i < n)%nat -> nth_error (chunks k n l) i = Some (firstn k (skipn (i * k) l)).
Proof.
  intros H. unfold chunks.
  rewrite nth_error_map, nth_error_seq.
  destruct (Nat.ltb_spec i n); [reflexivity | lia].
Qed.

Lemma chunk_length {A : Type} (k i : nat) (l : list A) :
  (i * k + k <= List.length l)%nat ->
  List.length (firstn k (skipn (i * k) l)) = k.
Proof. intros H. rewrite length_firstn, length_skipn. lia. Qed.

Lemma chunk_nth {A : Type} (k i j : nat) (l : list A) :
  (j < k)%nat ->
  nth_error (firstn k (skipn (i * k) l)) j = nth_error l (i * k + j).
Proof.
  intros H. rewrite nth_error_firstn.
  destruct (Nat.ltb_spec j k); [| lia].
  apply nth_error_skipn.
Qed.

Lemma firstn_plus {A : Type} (a b : nat) (l : list A) :
  firstn (a + b) l = firstn a l ++ firstn b (skipn a l).
Proof.
  revert l. induction a as [| a IH]; intros l; simpl.
  - reflexivity.
  - destruct l as [| x l]; simpl.
    + rewrite firstn_nil. reflexivity.
    + rewrite IH. reflexivity.
Qed.

(** Put back together, the chunks are the front [n*k] elements. *)
Lemma chunks_concat {A : Type} (k n : nat) (l : list A) :
  List.concat (chunks k n l) = firstn (n * k) l.
Proof.
  unfold chunks. induction n as [| n IH].
  - reflexivity.
  - rewrite seq_S, map_app, concat_app, IH. simpl.
    rewrite app_nil_r.
    replace (k + n * k)%nat with (n * k + k)%nat by lia.
    symmetry. apply firstn_plus.
Qed.

Lemma range_of_nat (n : nat) : Py.range (Z.of_nat n) = map Z.of_nat (seq 0 n).
Proof. unfold Py.range. rewrite Nat2Z.id. reflexivity. Qed.

(** Whenever [n] groups of [k] names fit in the list, line 43 builds
    exactly the chunks. *)
Lemma specbrams_list_chunks (a : args) (l : list string) (k n : nat) :
  bramnames a = Some l ->
  nspecs a = Z.of_nat n ->
  (n * k <= List.length l)%nat ->
  specbrams_list_of a (Z.of_nat k) = Ok (chunks k n l).
Proof.
  intros Hl Hn Hfit. unfold specbrams_list_of.
  rewrite Hl, Hn, range_of_nat.
  rewrite (mapM_Ok _ (fun z => firstn k (skipn (Z.to_nat z * k) l))).
  - unfold chunks. rewrite map_map. f_equal.
    apply map_ext. intros i. rewrite Nat2Z.id. reflexivity.
  - intros z Hz. apply in_map_iff in Hz. destruct Hz as [i [<- Hi]].
    apply in_seq in Hi. simpl. rewrite Nat2Z.id.
    f_equal. apply slice_chunk. nia.
Qed.

Lemma choices_positive (n : Z) : In n nspecs_choices -> 0 < n.
Proof. unfold nspecs_choices. simpl. intuition lia. Qed.

Lemma nbrams_floor (a : args) (l : list string) :
  bramnames a = Some l -> 0 < nspecs a ->
  nbrams_of a = Ok (Z.of_nat (List.length l) / nspecs a).
Proof.
  intros Hl Hn. unfold nbrams_of. rewrite Hl. simpl. unfold Py.div.
  destruct (nspecs a =? 0) eqn:E; [apply Z.eqb_eq in E; lia | reflexivity].
Qed.

(** The share of each spectrum, as a number of names, and the fact that
    the shares fit in the list. *)
Lemma shares_fit (m n : Z) :
  0 <= m -> 0 < n ->
  0 <= m / n /\ (Z.to_nat n * Z.to_nat (m / n) <= Z.to_nat m)%nat.
Proof.
  intros Hm Hn.
  assert (H0 : 0 <= m / n) by (apply Z.div_pos; lia).
  split; [exact H0 |].
  pose proof (Z.mul_div_le m n Hn). nia.
Qed.

Lemma groups_built (a : args) (l : list string) :
  bramnames a = Some l -> 0 < nspecs a ->
  specbrams_list_of a (Z.of_nat (List.length l) / nspecs a)
  = Ok (chunks (Z.to_nat (Z.of_nat (List.length l) / nspecs a))
               (Z.to_nat (nspecs a)) l).
Proof.
  intros Hl Hn.
  destruct (shares_fit (Z.of_nat (List.length l)) (nspecs a)) as [H0 Hfit];
    [lia | exact Hn |].
  rewrite <- (specbrams_list_chunks a l _ _ Hl).
  - rewrite Z2Nat.id by exact H0. reflexivity.
  - lia.
  - lia.
Qed.

(** ** The frequency axis *)














(** ** Blocks per spectrum and grouping *)

(** C1. For a spectra count among 1, 2, 4, 16 and a block-name list whose
    length [m] is a multiple of it, [nbrams] is [m/n] exactly
    ([n * (m/n) = m]), and [specbrams_list] consists of [n] groups that
    partition the list: put back together they are the list, each has
    [m/n] names, and name [j] of group [i] is name [i*(m/n) + j] of the
    list. *)
Theorem C1_grouping_partitions (a : args) (l : list string) :
  In (nspecs a) nspecs_choices ->
  bramnames a = Some l ->
  (nspecs a | Z.of_nat (List.length l)) ->
  let n := Z.to_nat (nspecs a) in
  let k := Z.to_nat (Z.of_nat (List.length l) / nspecs a) in
  nbrams_of a = Ok (Z.of_nat (List.length l) / nspecs a)
  /\ (n * k = List.length l)%nat
  /\ exists groups,
       specbrams_list_of a (Z.of_nat (List.length l) / nspecs a) = Ok groups
       /\ List.length groups = n
       /\ List.concat groups = l
       /\ forall i, (i < n)%nat ->
            exists g, nth_error groups i = Some g
                      /\ List.length g = k
                      /\ forall j, (j < k)%nat ->
                           nth_error g j = nth_error l (i * k + j).
Proof.
  intros Hc Hl Hdiv n k.
  pose proof (choices_positive _ Hc) as Hpos.
  assert (Hexact : (n * k = List.length l)%nat).
  { destruct Hdiv as [q Hq]. subst n k. rewrite Hq, Z.div_mul by lia. nia. }
  split; [apply nbrams_floor; assumption |].
  split; [exact Hexact |].
  exists (chunks k n l).
  split; [apply groups_built; assumption |].
  split; [apply chunks_length |].
  split.
  - rewrite chunks_concat, Hexact. apply firstn_all.
  - intros i Hi. exists (firstn k (skipn (i * k) l)).
    split; [apply chunks_nth; exact Hi |].
    split; [apply chunk_length; nia |].
    intros j Hj. apply chunk_nth. exact Hj.
Qed.

(** C2. When the number of block names is not a multiple of the spectra
    count, nothing is checked and nothing raises: [nbrams] is the floor
    of the quotient, every spectrum gets a group of that many names, the
    groups are the front of the list in order, and the names left over at
    the end (as many as the remainder, so at least one) are in no group. *)
Theorem C2_grouping_truncates (a : args) (l : list string) :
  In (nspecs a) nspecs_choices ->
  bramnames a = Some l ->
  Z.of_nat (List.length l) mod nspecs a <> 0 ->
  let n := Z.to_nat (nspecs a) in
  let k := Z.to_nat (Z.of_nat (List.length l) / nspecs a) in
  nbrams_of a = Ok (Z.of_nat (List.length l) / nspecs a)
  /\ exists groups,
       specbrams_list_of a (Z.of_nat (List.length l) / nspecs a) = Ok groups
       /\ List.length groups = n
       /\ (forall g, In g groups -> List.length g = k)
       /\ l = List.concat groups ++ skipn (n * k) l
       /\ List.length (skipn (n * k) l)
          = Z.to_nat (Z.of_nat (List.length l) mod nspecs a)
       /\ skipn (n * k) l <> [].
Proof.
  intros Hc Hl Hrem n k.
  pose proof (choices_positive _ Hc) as Hpos.
  destruct (shares_fit (Z.of_nat (List.length l)) (nspecs a)) as [H0 Hfit];
    [lia | exact Hpos |].
  assert (Hdrop : List.length (skipn (n * k) l)
                  = Z.to_nat (Z.of_nat (List.length l) mod nspecs a)).
  { rewrite length_skipn. subst n k.
    rewrite Z.mod_eq by lia. nia. }
  split; [apply nbrams_floor; assumption |].
  exists (chunks k n l).
  split; [apply groups_built; assumption |].
  split; [apply chunks_length |].
  split.
  { intros g Hg. unfold chunks in Hg. apply in_map_iff in Hg.
    destruct Hg as [i [<- Hi]]. apply in_seq in Hi.
    apply chunk_length. subst n k. nia. }
  split.
  { rewrite chunks_concat. symmetry. apply firstn_skipn. }
  split; [exact Hdrop |].
  intros Hnil. rewrite Hnil in Hdrop. simpl in Hdrop.
  pose proof (Z.mod_pos_bound (Z.of_nat (List.length l)) (nspecs a) Hpos).
  lia.
Qed.

(** ** The channel count *)

Lemma derive_ok (a : args) (l : list string) :
  bramnames a = Some l -> 0 < nspecs a -> 0 <= awidth a ->
  derive a
  = Ok (Z.of_nat (List.length l) / nspecs a,
        chunks (Z.to_nat (Z.of_nat (List.length l) / nspecs a))
               (Z.to_nat (nspecs a)) l,
        2 ^ awidth a * (Z.of_nat (List.length l) / nspecs a),
        freqs_of a (2 ^ awidth a * (Z.of_nat (List.length l) / nspecs a))).
Proof.
  intros Hl Hn Haw. unfold derive.
  rewrite (nbrams_floor a l Hl Hn). simpl.
  rewrite (groups_built a l Hl Hn). simpl.
  unfold nchannels_of, Py.pow2.
  destruct (awidth a <? 0) eqn:E; [apply Z.ltb_lt in E; lia |].
  reflexivity.
Qed.

(** C4. The derived channel count is 2 to the address width, times the
    blocks per spectrum (the number of block names divided by the spectra
    count).  The hypotheses say where a channel count is derived as an
    integer: the block names are given and the width is not negative. *)
Theorem C4_channel_count (a : args) (l : list string) :
  In (nspecs a) nspecs_choices ->
  bramnames a = Some l ->
  0 <= awidth a ->
  exists nbrams groups nchannels freqs,
    derive a = Ok (nbrams, groups, nchannels, freqs)
    /\ nbrams = Z.of_nat (List.length l) / nspecs a
    /\ nchannels = 2 ^ awidth a * nbrams.
Proof.
  intros Hc Hl Haw.
  pose proof (choices_positive _ Hc) as Hpos.
  eexists _, _, _, _. split; [apply (derive_ok a l Hl Hpos Haw) |].
  split; reflexivity.
Qed.

(** ** The frequency axis, continued *)





(** ** The figure builder *)

Section FigureProperties.

Context {ext : Extern}.




(** *** On any heap *)

Lemma update_at_end {A : Type} (f : A -> A) (pre : list A) (x : A) (post : list A) :
  update (List.length pre) f (pre ++ x :: post) = pre ++ f x :: post.
Proof. induction pre as [| y pre IH]; simpl; [reflexivity | rewrite IH; reflexivity]. Qed.

(** The loop, started at place [i] on the subplots [todo] that follow
    [done] in the store: it finishes each of them, and adds one line per
    subplot after the lines [lns]. *)
Lemma figure_loop_run (bw dBFS : float) (todo : list axes_obj) :
  forall (i : nat) (done : list axes_obj) (lns : list line_obj)
         (lines : list handle) (w : world) (lg : list (event ext))
         (fg : option figure),
    figure_loop bw dBFS
      (combine (seq i (List.length todo))
               (seq (List.length done) (List.length todo)))
      lines (mkHeap w lg fg (done ++ todo) lns)
    = (lines ++ seq (List.length lns) (List.length todo),
       mkHeap w lg fg
         (done ++ finish_all bw dBFS i (List.length lns) todo)
         (lns ++ map (fun ax => mkLine ax true None)
                     (seq (List.length done) (List.length todo)))).
Proof.
  induction todo as [| a todo IH]; intros i done lns lines w lg fg.
  - simpl. rewrite !app_nil_r. reflexivity.
  - cbn [List.length seq combine figure_loop].
    unfold plot, with_axes.
    cbn [h_world h_log h_fig h_axes h_lines].
    rewrite !update_at_end.
    replace (done ++ add_line (List.length lns)
                       (grid_on
                          (set_title ("In " ++ Py.str i)%string
                             (set_ylabel "Power [dBFS]"
                                (set_xlabel "Frequency [MHz]"
                                   (set_ylim (- dBFS - 2, 0)%float
                                      (set_xlim (0, bw)%float a)))))) :: todo)
      with ((done ++ [finish bw dBFS i (List.length lns) a]) ++ todo)
      by (rewrite <- app_assoc; reflexivity).
    replace (S (List.length done))
      with (List.length (done ++ [finish bw dBFS i (List.length lns) a]))
      by (rewrite length_app; simpl; lia).
    rewrite IH.
    rewrite !length_app. cbn [List.length map finish_all].
    rewrite <- !app_assoc. cbn [app].
    replace (List.length lns + 1)%nat with (S (List.length lns)) by lia.
    replace (List.length done + 1)%nat with (S (List.length done)) by lia.
    reflexivity.
Qed.

Lemma seq_from (b n : nat) : map (fun c => (b + c)%nat) (seq 0 n) = seq b n.
Proof.
  revert b. induction n as [| n IH]; intros b; simpl.
  - reflexivity.
  - rewrite Nat.add_0_r. f_equal. rewrite <- seq_shift, map_map.
    rewrite <- (IH (S b)). apply map_ext. intros c. lia.
Qed.

(** The traversal of the grid visits the handles in increasing order. *)
Lemma flatten_grid (base nrows ncols : nat) :
  flatten (grid base nrows ncols) = seq base (nrows * ncols).
Proof.
  unfold flatten, grid. revert base.
  induction nrows as [| nrows IH]; intros base.
  - reflexivity.
  - rewrite seq_S, map_app, concat_app. cbn [map List.concat].
    rewrite app_nil_r, IH. cbn [Nat.add].
    replace (S nrows * ncols)%nat with (nrows * ncols + ncols)%nat by lia.
    rewrite seq_app. f_equal. apply seq_from.
Qed.

Lemma fresh_axes_length (nrows ncols : nat) :
  List.length (fresh_axes nrows ncols) = (nrows * ncols)%nat.
Proof.
  unfold fresh_axes. induction nrows as [| nrows IH].
  - reflexivity.
  - rewrite seq_S, flat_map_app, length_app, IH. simpl.
    rewrite app_nil_r, length_map, length_seq. lia.
Qed.

(** [create_figure] on any heap: the new subplots come after the ones
    the heap had, and the new lines after its lines. *)
Lemma create_figure_run (ns : Z) (nrows ncols : nat) (bw dBFS : float) (h : heap ext) :
  getitem axmap ns = Ok (nrows, ncols) ->
  create_figure ns bw dBFS h
  = (Ok (seq (List.length (h_lines h)) (nrows * ncols)),
     mkHeap (h_world h) (h_log h) (Some (mkFigure nrows ncols true))
       (h_axes h
        ++ finish_all bw dBFS 0 (List.length (h_lines h)) (fresh_axes nrows ncols))
       (h_lines h
        ++ map (fun ax => mkLine ax true None)
               (seq (List.length (h_axes h)) (nrows * ncols)))).
Proof.
  intros Hget. unfold create_figure. rewrite Hget.
  unfold subplots, set_tight_layout, enumerate.
  cbn [h_world h_log h_fig h_axes h_lines option_map fig_nrows fig_ncols].
  rewrite flatten_grid, length_seq.
  fold (fresh_axes nrows ncols).
  rewrite <- (fresh_axes_length nrows ncols).
  rewrite figure_loop_run. reflexivity.
Qed.

Lemma finish_all_length (bw dBFS : float) (todo : list axes_obj) (i ln : nat) :
  List.length (finish_all bw dBFS i ln todo) = List.length todo.
Proof.
  revert i ln. induction todo as [| a todo IH]; intros i ln; simpl.
  - reflexivity.
  - rewrite IH. reflexivity.
Qed.

Lemma finish_all_nth (bw dBFS : float) (todo : list axes_obj) :
  forall (i ln j : nat) (a : axes_obj),
    nth_error todo j = Some a ->
    nth_error (finish_all bw dBFS i ln todo) j
    = Some (finish bw dBFS (i + j)%nat (ln + j)%nat a).
Proof.
  induction todo as [| b todo IH]; intros i ln [| j] a H; simpl in *;
    try discriminate.
  - injection H as ->. rewrite !Nat.add_0_r. reflexivity.
  - rewrite (IH (S i) (S ln) j a H).
    replace (S i + j)%nat with (i + S j)%nat by lia.
    replace (S ln + j)%nat with (ln + S j)%nat by lia.
    reflexivity.
Qed.



End FigureProperties.

(** ** The frame callback *)

Section FrameProperties.

Context {ext : Extern}.

Lemma update_length {A : Type} (n : nat) (f : A -> A) (l : list A) :
  List.length (update n f l) = List.length l.
Proof.
  revert n. induction l as [| x l IH]; intros [| n]; simpl; auto.
Qed.

Lemma update_nth_same {A : Type} (n : nat) (f : A -> A) (l : list A) (x : A) :
  nth_error l n = Some x -> nth_error (update n f l) n = Some (f x).
Proof.
  revert n. induction l as [| y l IH]; intros [| n] H; simpl in *;
    try discriminate.
  - injection H as ->. reflexivity.
  - apply IH. exact H.
Qed.

Lemma update_nth_other {A : Type} (n m : nat) (f : A -> A) (l : list A) :
  n <> m -> nth_error (update n f l) m = nth_error l m.
Proof.
  revert n m. induction l as [| y l IH]; intros [| n] [| m] H; simpl;
    try reflexivity; try congruence.
  apply IH. congruence.
Qed.

Lemma update_map_stable {A B : Type} (g : A -> B) (n : nat) (f : A -> A)
    (l : list A) :
  (forall x, g (f x) = g x) -> map g (update n f l) = map g l.
Proof.
  intros Hg. revert n. induction l as [| x l IH]; intros [| n]; simpl;
    try reflexivity.
  - rewrite Hg. reflexivity.
  - rewrite IH. reflexivity.
Qed.

(** The effect of the loop body on each part of the heap. *)
Lemma animate_pair_effect (c : env ext) (line : handle) (brams : list string)
    (h : heap ext) :
  let rd := read_interleave_data (e_roach c) brams (awidth (e_args c))
              (dwidth (e_args c)) (dtype (e_args c)) (h_world h) in
  let y := scale_and_dBFS_specdata (fst rd) (acclen (e_args c))
             (nbits (e_args c)) (e_nchannels c) in
  animate_pair c (line, brams) h
  = mkHeap (snd rd)
      (h_log h
       ++ [ReadInterleaveData (e_roach c) brams (awidth (e_args c))
             (dwidth (e_args c)) (dtype (e_args c));
           ScaleAndDBFS (fst rd) (acclen (e_args c)) (nbits (e_args c))
             (e_nchannels c);
           SetData line (e_freqs c) y])
      (h_fig h) (h_axes h)
      (update line (fun l => mkLine (ln_axes l) (ln_animated l)
                                    (Some (e_freqs c, y)))
              (h_lines h)).
Proof.
  intros rd y. subst y rd.
  unfold animate_pair, call_read_interleave_data, call_scale_and_dBFS_specdata.
  destruct (read_interleave_data _ _ _ _ _ _) as [d w1].
  unfold set_data, with_line, with_world, log. simpl.
  rewrite <- !app_assoc. reflexivity.
Qed.

(** The loop makes the specified calls, appends them to the log, and
    leaves the figure and the subplots alone. *)
Lemma animate_loop_calls (c : env ext) (pairs : list (handle * list string))
    (h : heap ext) :
  exists evs,
    tick_calls c (h_world h) pairs evs (h_world (animate_loop c pairs h))
    /\ h_log (animate_loop c pairs h) = h_log h ++ evs
    /\ h_fig (animate_loop c pairs h) = h_fig h
    /\ h_axes (animate_loop c pairs h) = h_axes h.
Proof.
  revert h. induction pairs as [| [line brams] rest IH]; intros h;
    cbn [animate_loop].
  - exists []. rewrite app_nil_r. repeat split. constructor.
  - rewrite animate_pair_effect.
    match goal with |- context [animate_loop c rest ?h1] =>
      destruct (IH h1) as [evs [Hc [Hl [Hf Ha]]]] end.
    cbn [h_world h_log h_fig h_axes] in Hc, Hl, Hf, Ha.
    eexists. split; [| split; [| split]].
    + eapply tick_pair; [apply surjective_pairing | exact Hc].
    + rewrite Hl, <- app_assoc. reflexivity.
    + exact Hf.
    + exact Ha.
Qed.

(** Facts read off the specified calls, by induction on their derivation. *)
Lemma tick_calls_frame_events (c : env ext) w pairs evs w' :
  tick_calls c w pairs evs w' -> Forall frame_event evs.
Proof.
  induction 1 as [| w w1 w2 line brams d rest evs Hr Ht IH].
  - constructor.
  - repeat (constructor; [exact I |]). exact IH.
Qed.

Lemma tick_calls_reads (c : env ext) w pairs evs w' :
  tick_calls c w pairs evs w' ->
  filter is_read evs
  = map (fun p => ReadInterleaveData (e_roach c) (snd p) (awidth (e_args c))
                    (dwidth (e_args c)) (dtype (e_args c))) pairs.
Proof.
  induction 1 as [| w w1 w2 line brams d rest evs Hr Ht IH]; simpl.
  - reflexivity.
  - rewrite IH. reflexivity.
Qed.


(** What the loop does to the lines: only their data changes, and only
    for the lines of the pairs, which end up plotted over the axis. *)
Lemma animate_loop_lines (c : env ext) (pairs : list (handle * list string))
    (h : heap ext) :
  map ln_axes (h_lines (animate_loop c pairs h)) = map ln_axes (h_lines h)
  /\ map ln_animated (h_lines (animate_loop c pairs h))
     = map ln_animated (h_lines h)
  /\ (forall ln, ~ In ln (map fst pairs) ->
        nth_error (h_lines (animate_loop c pairs h)) ln
        = nth_error (h_lines h) ln)
  /\ (forall ln, In ln (map fst pairs) -> (ln < List.length (h_lines h))%nat ->
        exists l, nth_error (h_lines (animate_loop c pairs h)) ln = Some l
                  /\ plotted_over (e_freqs c) l).
Proof.
  revert h. induction pairs as [| [line brams] rest IH]; intros h;
    cbn [animate_loop map fst In].
  - repeat split; try reflexivity. intros ln [].
  - rewrite animate_pair_effect.
    match goal with |- context [animate_loop c rest ?h1] =>
      destruct (IH h1) as [Hax [Han [Hout Hin]]] end.
    cbn [h_lines] in Hax, Han, Hout, Hin.
    rewrite update_map_stable in Hax by reflexivity.
    rewrite update_map_stable in Han by reflexivity.
    split; [exact Hax |]. split; [exact Han |]. split.
    + intros ln Hln. rewrite Hout by tauto.
      apply update_nth_other. tauto.
    + intros ln Hln Hlt.
      destruct (in_dec Nat.eq_dec ln (map fst rest)) as [Hrest | Hrest].
      * apply Hin; [exact Hrest | rewrite update_length; exact Hlt].
      * destruct Hln as [-> | Hln]; [| contradiction].
        rewrite Hout by exact Hrest.
        destruct (nth_error (h_lines h) ln) as [l0 |] eqn:E.
        -- erewrite update_nth_same by exact E.
           eexists. split; [reflexivity |]. eexists. reflexivity.
        -- apply nth_error_None in E. lia.
Qed.

End FrameProperties.

(** ** Setup *)

Section RunProperties.

Context {ext : Extern}.


Lemma skipn_app_exact {A : Type} (l1 l2 : list A) :
  skipn (List.length l1) (l1 ++ l2) = l2.
Proof. induction l1 as [| x l1 IH]; simpl; [reflexivity | exact IH]. Qed.

Lemma in_combine_fst {A B : Type} (x : A) (l1 : list A) (l2 : list B) :
  In x (map fst (combine l1 l2)) -> In x l1.
Proof.
  intros H. apply in_map_iff in H. destruct H as [[a b] [<- H]].
  apply in_combine_l in H. exact H.
Qed.

(** One tick, read through [animate_loop_calls]. *)
Lemma animate_calls (fs : frame_state ext) :
  let c := cells fs in
  tick_calls c (h_world (hp fs)) (combine (e_lines c) (e_specbrams_list c))
    (tick_log fs) (h_world (hp (snd (animate fs))))
  /\ h_log (hp (snd (animate fs))) = h_log (hp fs) ++ tick_log fs.
Proof.
  intros c. unfold tick_log, animate. cbn [snd hp]. fold c.
  destruct (animate_loop_calls c (combine (e_lines c) (e_specbrams_list c)) (hp fs))
    as [evs [Hc [Hl _]]].
  rewrite Hl, skipn_app_exact. split; [exact Hc | reflexivity].
Qed.

Lemma animate_cells (fs : frame_state ext) : cells (snd (animate fs)) = cells fs.
Proof. reflexivity. Qed.

Lemma ticks_cells (k : nat) (fs : frame_state ext) : cells (ticks k fs) = cells fs.
Proof.
  revert fs. induction k as [| k IH]; intros fs; simpl.
  - reflexivity.
  - rewrite IH. apply animate_cells.
Qed.

(** All that [k] ticks add to the log are calls of the frame callback. *)
Lemma ticks_log (k : nat) (fs : frame_state ext) :
  exists evs,
    h_log (hp (ticks k fs)) = h_log (hp fs) ++ evs /\ Forall frame_event evs.
Proof.
  revert fs. induction k as [| k IH]; intros fs; cbn [ticks].
  - exists []. rewrite app_nil_r. split; [reflexivity | constructor].
  - destruct (IH (snd (animate fs))) as [evs [Hl Hf]].
    destruct (animate_calls fs) as [Hc Ha].
    exists (tick_log fs ++ evs). split.
    + rewrite Hl, Ha, app_assoc. reflexivity.
    + apply Forall_app. split; [| exact Hf].
      eapply tick_calls_frame_events. exact Hc.
Qed.

End RunProperties.

(** ** The run *)

Section Claims.

Context {ext : Extern}.



(** C9. Whatever number of ticks has run, the variables the frame
    callback closes over are the ones the setup left (configuration,
    device handle, block groups, channel count, frequency axis, list of
    lines), the figure and its subplots are untouched, every line is
    still attached to the same subplot with the same flag, and a line
    that is not in the list of lines keeps its data: only the data of
    those lines changes. *)
Theorem C9_frames_change_line_data_only (fs : frame_state ext) (k : nat) :
  e_args (cells (ticks k fs)) = e_args (cells fs)
  /\ e_roach (cells (ticks k fs)) = e_roach (cells fs)
  /\ e_freqs (cells (ticks k fs)) = e_freqs (cells fs)
  /\ e_nchannels (cells (ticks k fs)) = e_nchannels (cells fs)
  /\ e_specbrams_list (cells (ticks k fs)) = e_specbrams_list (cells fs)
  /\ e_lines (cells (ticks k fs)) = e_lines (cells fs)
  /\ h_fig (hp (ticks k fs)) = h_fig (hp fs)
  /\ h_axes (hp (ticks k fs)) = h_axes (hp fs)
  /\ map ln_axes (h_lines (hp (ticks k fs))) = map ln_axes (h_lines (hp fs))
  /\ map ln_animated (h_lines (hp (ticks k fs)))
     = map ln_animated (h_lines (hp fs))
  /\ forall ln, ~ In ln (e_lines (cells fs)) ->
       nth_error (h_lines (hp (ticks k fs))) ln = nth_error (h_lines (hp fs)) ln.
Proof.
  rewrite ticks_cells.
  do 6 (split; [reflexivity |]).
  revert fs. induction k as [| k IH]; intros fs; cbn [ticks].
  - repeat split; reflexivity.
  - destruct (IH (snd (animate fs))) as [Hf [Ha [Hx [Hn Hd]]]].
    rewrite Hf, Ha, Hx, Hn. unfold animate. cbn [snd hp cells] in *.
    set (c := cells fs) in *.
    set (pairs := combine (e_lines c) (e_specbrams_list c)) in *.
    destruct (animate_loop_calls c pairs (hp fs)) as [_ [_ [_ [Hf1 Ha1]]]].
    destruct (animate_loop_lines c pairs (hp fs)) as [Hx1 [Hn1 [Hd1 _]]].
    repeat split; try assumption.
    intros ln Hln. rewrite Hd by exact Hln. apply Hd1.
    intros Hin. apply Hln. eapply in_combine_fst. exact Hin.
Qed.


(** Without block names the run stops at line 42, with the device
    initialised and nothing else done. *)
Lemma run_without_bramnames (a : args) (k : nat) (w : world) :
  bramnames a = None ->
  run a k w
  = (Raise TypeError,
     mkHeap (snd (initialize_roach (ip a) (boffile a) (rver a) w))
            [InitializeRoach (ip a) (boffile a) (rver a)] None [] []).
Proof.
  intros Hb. unfold run, setup, call_initialize_roach.
  destruct (initialize_roach _ _ _ _) as [r w1].
  unfold derive, nbrams_of. rewrite Hb. reflexivity.
Qed.

(** C10. [--bramnames] is optional and has no default: the command line
    [-i 10.0.0.1], which does not give it, parses (no usage error) into a
    configuration without block names; taking the length of the absent
    list then raises a type error, and the run ends with it, after the
    device initialisation and nothing else. *)
Theorem C10_bramnames_optional :
  exists argv a,
    ~ In "-bn" argv /\ ~ In "--bramnames" argv
    /\ parse_args argv = Ok a
    /\ bramnames a = None
    /\ nbrams_of a = Raise TypeError
    /\ forall (k : nat) (w : world),
         main argv k w
         = (Raise TypeError,
            mkHeap (snd (initialize_roach (ip a) (boffile a) (rver a) w))
                   [InitializeRoach (ip a) (boffile a) (rver a)] None [] []).
Proof.
  exists ["-i"; "10.0.0.1"].
  exists (mkArgs "10.0.0.1" None 2 None 2 ">i8" 9 64 1080 8
                 "cnt_rst" "acc_len" 65536).
  assert (Hp : parse_args ["-i"; "10.0.0.1"]
               = Ok (mkArgs "10.0.0.1" None 2 None 2 ">i8" 9 64 1080 8
                            "cnt_rst" "acc_len" 65536))
    by (vm_compute; reflexivity).
  split; [simpl; intuition discriminate |].
  split; [simpl; intuition discriminate |].
  split; [exact Hp |].
  split; [reflexivity |].
  split; [reflexivity |].
  intros k w. unfold main. rewrite Hp.
  apply run_without_bramnames. reflexivity.
Qed.

End Claims.

(** ** The theorems at concrete inputs *)

Lemma C1_witness :
  exists groups,
    specbrams_list_of args_four_names 2 = Ok groups
    /\ List.concat groups = ["dout0"; "dout1"; "dout2"; "dout3"].
Proof.
  assert (Hc : In (nspecs args_four_names) nspecs_choices) by (simpl; tauto).
  assert (Hl : bramnames args_four_names
               = Some ["dout0"; "dout1"; "dout2"; "dout3"]) by reflexivity.
  assert (Hd : (nspecs args_four_names | Z.of_nat 4)) by (exists 2; reflexivity).
  destruct (C1_grouping_partitions args_four_names _ Hc Hl Hd)
    as [_ [_ [groups [Hg [_ [Hcat _]]]]]].
  exists groups. split; [exact Hg | exact Hcat].
Defined.

Lemma C2_witness :
  exists groups,
    specbrams_list_of args_three_names 1 = Ok groups
    /\ ["dout0"; "dout1"; "dout2"] = List.concat groups ++ ["dout2"].
Proof.
  assert (Hc : In (nspecs args_three_names) nspecs_choices) by (simpl; tauto).
  assert (Hl : bramnames args_three_names = Some ["dout0"; "dout1"; "dout2"])
    by reflexivity.
  assert (Hr : Z.of_nat 3 mod nspecs args_three_names <> 0)
    by (vm_compute; discriminate).
  destruct (C2_grouping_truncates args_three_names _ Hc Hl Hr)
    as [_ [groups [Hg [_ [_ [Hcat _]]]]]].
  exists groups. split; [exact Hg | exact Hcat].
Defined.


Lemma C4_witness :
  exists nbrams groups nchannels freqs,
    derive args_four_names = Ok (nbrams, groups, nchannels, freqs)
    /\ nchannels = 2 ^ 9 * nbrams.
Proof.
  assert (Hc : In (nspecs args_four_names) nspecs_choices) by (simpl; tauto).
  assert (Hl : bramnames args_four_names
               = Some ["dout0"; "dout1"; "dout2"; "dout3"]) by reflexivity.
  assert (Haw : 0 <= awidth args_four_names) by (simpl; lia).
  destruct (C4_channel_count args_four_names _ Hc Hl Haw)
    as [nb [gs [nch [fr [Hd [_ Hn]]]]]].
  exists nb, gs, nch, fr. split; [exact Hd | exact Hn].
Defined.





(** * Further properties *)

(** ** The parser *)

Module ParserMore.
Import Argparse.
Import ParserFacts.

Lemma classify_flag (s : string) (a : argument) :
  classify parser s = Flag a -> In a parser /\ In s (arg_flags a).
Proof.
  unfold classify. destruct (find (has_flag s) parser) as [a' |] eqn:E.
  - intros H. injection H as <-. apply find_some in E.
    destruct E as [Hin Hf]. split; [exact Hin |].
    unfold has_flag in Hf. apply existsb_exists in Hf.
    destruct Hf as [f [Hf E]]. apply String.eqb_eq in E. subst f. exact Hf.
  - intros H. destruct s as [| c s']; [discriminate H |].
    destruct c as [[] [] [] [] [] [] [] []]; destruct s';
      try discriminate H;
      destruct (negative_number _); discriminate H.
Qed.

(** *** An option that is not on the command line *)

Section Absent.

Variable n : string.
Variable v : option value.

Lemma store_untouched (st : pstate) (a : argument) (x : value) :
  untouched n v st -> arg_dest a <> n -> untouched n v (store a x st).
Proof.
  intros [Hv Hs _ _] Hd. split; cbn [store p_ns p_seen p_collect p_expect].
  - rewrite getattr_setattr_other by exact Hd. exact Hv.
  - intros [E | Hin]; [exact (Hd E) | exact (Hs Hin)].
  - discriminate.
  - discriminate.
Qed.

Lemma close_untouched (st st' : pstate) :
  untouched n v st -> close st = Ok st' -> untouched n v st'.
Proof.
  intros Hu. unfold close.
  destruct (p_expect st); [discriminate |].
  destruct (p_collect st) as [[a ws] |] eqn:E; intros H; injection H as <-.
  - apply store_untouched; [exact Hu |]. eapply un_collect; eauto.
  - exact Hu.
Qed.

Lemma step_untouched (st st' : pstate) (t : token) :
  untouched n v st -> not_flag_of n t -> step st t = Ok st' -> untouched n v st'.
Proof.
  intros Hu Ht. destruct t as [a | s |]; cbn [step]; [| | discriminate].
  - intros H. destruct (close st) as [st1 | |] eqn:Ec; cbn [bind] in H;
      try discriminate H.
    pose proof (close_untouched _ _ Hu Ec) as [Hv Hs _ _].
    destruct (arg_action a); [| discriminate H].
    destruct (arg_nargs a); injection H as <-;
      split; cbn [p_ns p_seen p_collect p_expect];
      try exact Hv; try exact Hs; try discriminate.
    + intros a' Ha'. injection Ha' as <-. exact Ht.
    + intros a' ws Ha'. injection Ha' as <- _. exact Ht.
  - intros H. destruct (p_expect st) as [a |] eqn:Ee.
    + destruct (convert a s) as [x | |]; cbn [bind] in H; try discriminate H.
      destruct (check_choices a x) as [x' | |]; cbn [bind] in H;
        try discriminate H.
      injection H as <-. apply store_untouched; [exact Hu |].
      eapply un_expect; eauto.
    + destruct Hu as [Hv Hs Hc _].
      destruct (p_collect st) as [[a ws] |] eqn:Ecol; injection H as <-;
        split; cbn [p_ns p_seen p_collect p_expect];
        try exact Hv; try exact Hs; try discriminate.
      intros a' ws' Ha'. injection Ha' as <- _. eapply Hc. reflexivity.
Qed.

Lemma steps_untouched (ts : list token) (st st' : pstate) :
  untouched n v st -> Forall (not_flag_of n) ts -> steps st ts = Ok st' ->
  untouched n v st'.
Proof.
  revert st. induction ts as [| t ts IH]; intros st Hu Hts; cbn [steps].
  - intros H. injection H as <-. exact Hu.
  - inversion Hts as [| ? ? Ht Hrest]; subst.
    intros H. destruct (step st t) as [st1 | |] eqn:E; cbn [bind] in H;
      try discriminate H.
    eapply IH; [eapply step_untouched; eauto | exact Hrest | exact H].
Qed.

(** The flags of the option stored under [n]. *)
Variable flags : list string.
Hypothesis declaration :
  forall a, In a parser -> arg_dest a = n -> arg_flags a = flags.

Lemma tokens_without (argv : list string) :
  (forall f, In f flags -> ~ In f argv) ->
  Forall (not_flag_of n) (map (classify parser) argv).
Proof.
  intros Habs. apply Forall_forall. intros t Ht.
  apply in_map_iff in Ht. destruct Ht as [s [<- Hs]].
  unfold not_flag_of. destruct (classify parser s) as [a | |] eqn:E;
    [| exact I | exact I].
  intros Hd. destruct (classify_flag _ _ E) as [Hin Hf].
  rewrite (declaration a Hin Hd) in Hf. exact (Habs _ Hf Hs).
Qed.

(** The state in which the whole command line has been read. *)
Lemma parse_final (argv : list string) (ns : namespace) :
  parse parser argv = Ok ns ->
  exists st,
    steps (mkP (defaults parser) [] None None false)
          (map (classify parser) argv) = Ok st
    /\ exists st', close st = Ok st'
                   /\ missing parser (p_seen st') = false
                   /\ p_ns st' = ns.
Proof.
  unfold parse. intros H.
  destruct (forallb within _); [| discriminate H].
  destruct (steps _ _) as [st | |] eqn:Es; cbn [bind] in H; try discriminate H.
  destruct (close st) as [st' | |] eqn:Ec; cbn [bind] in H; try discriminate H.
  destruct (missing parser (p_seen st')) eqn:Em; [discriminate H |].
  destruct (p_extras st'); [discriminate H |].
  injection H as <-. exists st. split; [reflexivity |].
  exists st'. auto.
Qed.

Lemma parse_untouched (argv : list string) (ns : namespace) :
  getattr (defaults parser) n = v ->
  (forall f, In f flags -> ~ In f argv) ->
  parse parser argv = Ok ns ->
  getattr ns n = v
  /\ forall a, In a parser -> arg_dest a = n -> arg_required a = false.
Proof.
  intros Hdef Habs Hp.
  destruct (parse_final _ _ Hp) as [st [Hs [st' [Hc [Hm <-]]]]].
  assert (Hu : untouched n v st').
  { eapply close_untouched; [| exact Hc].
    eapply steps_untouched; [| apply tokens_without; exact Habs | exact Hs].
    split; cbn [p_ns p_seen p_collect p_expect];
      [exact Hdef | intros [] | discriminate | discriminate]. }
  split; [apply (un_value _ _ _ Hu) |].
  intros a Hin Hd. destruct (arg_required a) eqn:Er; [| reflexivity].
  exfalso. unfold missing in Hm.
  assert (Hex : existsb
            (fun a0 => arg_required a0
                       && negb (existsb (String.eqb (arg_dest a0)) (p_seen st')))
            parser = true).
  { apply existsb_exists. exists a. split; [exact Hin |].
    rewrite Er. cbn [andb]. apply negb_true_iff.
    destruct (existsb (String.eqb (arg_dest a)) (p_seen st')) eqn:E;
      [| reflexivity].
    apply existsb_exists in E. destruct E as [x [Hx E]].
    apply String.eqb_eq in E. subst x. rewrite Hd in Hx.
    destruct (un_seen _ _ _ Hu Hx). }
  congruence.
Qed.

End Absent.

End ParserMore.

Ltac by_declaration :=
  let H := fresh "H" in
  let Hd := fresh "Hd" in
  unfold parser; cbn [In]; intros ? H Hd;
  repeat (destruct H as [<- | H]; [cbn in *; congruence |]);
  contradiction.

(** What [to_args] reads is what the namespace holds. *)
Lemma to_args_fields (ns : Argparse.namespace) (a : args) :
  to_args ns = Ok a ->
  Attr.str ns "ip" = Ok (ip a)
  /\ Attr.opt_str ns "boffile" = Ok (boffile a)
  /\ Attr.int ns "rver" = Ok (rver a)
  /\ Attr.opt_list ns "bramnames" = Ok (bramnames a)
  /\ Attr.int ns "nspecs" = Ok (nspecs a)
  /\ Attr.str ns "dtype" = Ok (dtype a)
  /\ Attr.int ns "awidth" = Ok (awidth a)
  /\ Attr.int ns "dwidth" = Ok (dwidth a)
  /\ Attr.number ns "bandwidth" = Ok (bandwidth a)
  /\ Attr.int ns "nbits" = Ok (nbits a)
  /\ Attr.str ns "count_reg" = Ok (count_reg a)
  /\ Attr.str ns "acc_reg" = Ok (acc_reg a)
  /\ Attr.int ns "acclen" = Ok (acclen a).
Proof.
  unfold to_args. intros H. bind_ok H. injection H as <-.
  repeat split; reflexivity.
Qed.

Lemma parse_args_inv (argv : list string) (a : args) :
  parse_args argv = Ok a ->
  exists ns, Argparse.parse parser argv = Ok ns /\ to_args ns = Ok a.
Proof.
  unfold parse_args. intros H. bind_ok H. eexists. split; [reflexivity | exact H].
Qed.

(** X1. [-i/--ip] is required.  Among the command lines written with
    full flags (every token one of the declared flags, or no flag at
    all), one that is accepted contains [-i] or [--ip]. *)
Theorem X1_ip_required (argv : list string) (a : args) :
  Forall spelled_out argv ->
  parse_args argv = Ok a -> In "-i" argv \/ In "--ip" argv.
Proof.
  intros _ Hp. destruct (parse_args_inv _ _ Hp) as [ns [Hns _]].
  destruct (in_dec string_dec "-i" argv) as [Hi | Hi]; [left; exact Hi |].
  destruct (in_dec string_dec "--ip" argv) as [Hl | Hl]; [right; exact Hl |].
  exfalso.
  destruct (ParserMore.parse_untouched "ip" (Some Argparse.VNone)
              ["-i"; "--ip"] ltac:(by_declaration) argv ns) as [_ Hreq].
  - reflexivity.
  - intros f [<- | [<- | []]]; assumption.
  - exact Hns.
  - specialize (Hreq (Argparse.mkArg ["-i"; "--ip"] "ip" Argparse.Store true
                        Argparse.Single Argparse.AsStr Argparse.VNone None)).
    cbn in Hreq. assert (true = false) by (apply Hreq; tauto). discriminate.
Qed.

Ltac absent_field Hns Hfield n v fl :=
  match type of Hns with
  | Argparse.parse _ ?argv = Ok ?ns =>
      let Hg := fresh "Hg" in
      assert (Hg : Argparse.getattr ns n = Some v);
      [ apply (ParserMore.parse_untouched n (Some v) fl ltac:(by_declaration)
                 argv ns eq_refl);
        [ cbn [In]; intros f Hf;
          repeat (destruct Hf as [<- | Hf]; [assumption |]); contradiction
        | exact Hns ]
      | unfold Attr.opt_str, Attr.opt_list, Attr.int, Attr.str, Attr.number
          in Hfield;
        rewrite Hg in Hfield; injection Hfield as <-; reflexivity ]
  end.

(** X2. Among the command lines written with full flags (every token
    one of the declared flags, or no flag at all), an accepted one
    leaves every option whose flags it does not contain at the declared
    default: no bitstream file, version 2, no block names, 2 spectra,
    type [">i8"], address width 9, data width 64, bandwidth 1080, 8
    bits, the registers [cnt_rst] and [acc_len], accumulation length
    65536. *)
Theorem X2_absent_options_keep_defaults (argv : list string) (a : args) :
  Forall spelled_out argv ->
  parse_args argv = Ok a ->
  (~ In "-b" argv -> ~ In "--bof" argv -> boffile a = None)
  /\ (~ In "-r" argv -> ~ In "--rver" argv -> rver a = 2)
  /\ (~ In "-bn" argv -> ~ In "--bramnames" argv -> bramnames a = None)
  /\ (~ In "-ns" argv -> ~ In "--nspecs" argv -> nspecs a = 2)
  /\ (~ In "-dt" argv -> ~ In "--dtype" argv -> dtype a = ">i8")
  /\ (~ In "-aw" argv -> ~ In "--addrwidth" argv -> awidth a = 9)
  /\ (~ In "-dw" argv -> ~ In "--datawidth" argv -> dwidth a = 64)
  /\ (~ In "-bw" argv -> ~ In "--bandwidth" argv -> bandwidth a = 1080%float)
  /\ (~ In "--nbits" argv -> nbits a = 8)
  /\ (~ In "-cr" argv -> ~ In "--countreg" argv -> count_reg a = "cnt_rst")
  /\ (~ In "-ar" argv -> ~ In "--accreg" argv -> acc_reg a = "acc_len")
  /\ (~ In "-al" argv -> ~ In "--acclen" argv -> acclen a = 65536).
Proof.
  intros _ Hp. destruct (parse_args_inv _ _ Hp) as [ns [Hns Ha]].
  destruct (to_args_fields _ _ Ha)
    as (_ & Hbof & Hrver & Hbn & Hnsp & Hdt & Haw & Hdw & Hbw & Hnb & Hcr
        & Har & Hal).
  repeat split; intros.
  - absent_field Hns Hbof "boffile" Argparse.VNone ["-b"; "--bof"].
  - absent_field Hns Hrver "rver" (Argparse.VInt 2) ["-r"; "--rver"].
  - absent_field Hns Hbn "bramnames" Argparse.VNone ["-bn"; "--bramnames"].
  - absent_field Hns Hnsp "nspecs" (Argparse.VInt 2) ["-ns"; "--nspecs"].
  - absent_field Hns Hdt "dtype" (Argparse.VStr ">i8") ["-dt"; "--dtype"].
  - absent_field Hns Haw "awidth" (Argparse.VInt 9) ["-aw"; "--addrwidth"].
  - absent_field Hns Hdw "dwidth" (Argparse.VInt 64) ["-dw"; "--datawidth"].
  - absent_field Hns Hbw "bandwidth" (Argparse.VInt 1080) ["-bw"; "--bandwidth"].
  - absent_field Hns Hnb "nbits" (Argparse.VInt 8) ["--nbits"].
  - absent_field Hns Hcr "count_reg" (Argparse.VStr "cnt_rst") ["-cr"; "--countreg"].
  - absent_field Hns Har "acc_reg" (Argparse.VStr "acc_len") ["-ar"; "--accreg"].
  - absent_field Hns Hal "acclen" (Argparse.VInt 65536) ["-al"; "--acclen"].
Qed.

(** *** An option with choices *)

Module ChoiceFacts.
Import Argparse.
Import ParserFacts.

Section Choice.

Variable n : string.
Variable cs : list Z.
Hypothesis has_choices :
  forall a, In a parser -> arg_dest a = n -> arg_choices a = Some cs.
Hypothesis takes_one :
  forall a, In a parser -> arg_nargs a = ZeroOrMore -> arg_dest a <> n.

Lemma store_choice_kept (st : pstate) (a : argument) (x : value) :
  choice_kept n cs st -> arg_dest a <> n -> choice_kept n cs (store a x st).
Proof.
  intros [[z [Hz Hin]] _ _] Hd. split; cbn [store p_ns p_collect p_expect].
  - exists z. rewrite getattr_setattr_other by exact Hd. auto.
  - discriminate.
  - discriminate.
Qed.

Lemma close_choice_kept (st st' : pstate) :
  choice_kept n cs st -> close st = Ok st' -> choice_kept n cs st'.
Proof.
  intros Hk. unfold close.
  destruct (p_expect st); [discriminate |].
  destruct (p_collect st) as [[a ws] |] eqn:E; intros H; injection H as <-.
  - apply store_choice_kept; [exact Hk |]. eapply ck_collect; eauto.
  - exact Hk.
Qed.

Lemma step_choice_kept (st st' : pstate) (t : token) :
  choice_kept n cs st -> declared t -> step st t = Ok st' ->
  choice_kept n cs st'.
Proof.
  intros Hk Ht. destruct t as [a | s |]; cbn [step]; [| | discriminate].
  - intros H. destruct (close st) as [st1 | |] eqn:Ec; cbn [bind] in H;
      try discriminate H.
    pose proof (close_choice_kept _ _ Hk Ec) as [Hv _ _].
    destruct (arg_action a); [| discriminate H].
    destruct (arg_nargs a) eqn:En; injection H as <-;
      split; cbn [p_ns p_collect p_expect]; try exact Hv; try discriminate.
    + intros a' Ha'. injection Ha' as <-. exact Ht.
    + intros a' ws Ha'. injection Ha' as <- _. apply takes_one; assumption.
  - intros H. destruct (p_expect st) as [a |] eqn:Ee.
    + destruct (convert a s) as [x | |]; cbn [bind] in H; try discriminate H.
      destruct (check_choices a x) as [x' | |] eqn:Ech; cbn [bind] in H;
        try discriminate H.
      injection H as <-.
      destruct (string_dec (arg_dest a) n) as [Hd | Hd].
      * pose proof (has_choices a (ck_expect _ _ _ Hk _ Ee) Hd) as Hcs.
        unfold check_choices in Ech. rewrite Hcs in Ech.
        destruct x as [| | z | |]; try discriminate Ech.
        destruct (mem z cs) eqn:Em; [| discriminate Ech].
        injection Ech as <-.
        split; cbn [store p_ns p_collect p_expect]; try discriminate.
        exists z. rewrite Hd, getattr_setattr_same.
        split; [reflexivity | apply mem_In; exact Em].
      * apply store_choice_kept; assumption.
    + destruct Hk as [Hv Hc _].
      destruct (p_collect st) as [[a ws] |] eqn:Ecol; injection H as <-;
        split; cbn [p_ns p_collect p_expect]; try exact Hv; try discriminate.
      intros a' ws' Ha'. injection Ha' as <- _. eapply Hc. reflexivity.
Qed.

Lemma steps_choice_kept (ts : list token) (st st' : pstate) :
  choice_kept n cs st -> Forall declared ts -> steps st ts = Ok st' ->
  choice_kept n cs st'.
Proof.
  revert st. induction ts as [| t ts IH]; intros st Hk Hts; cbn [steps].
  - intros H. injection H as <-. exact Hk.
  - inversion Hts as [| ? ? Ht Hrest]; subst.
    intros H. destruct (step st t) as [st1 | |] eqn:E; cbn [bind] in H;
      try discriminate H.
    eapply IH; [eapply step_choice_kept; eauto | exact Hrest | exact H].
Qed.

Lemma parse_choice (argv : list string) (ns : namespace) (z0 : Z) :
  getattr (defaults parser) n = Some (VInt z0) -> In z0 cs ->
  parse parser argv = Ok ns ->
  exists z, getattr ns n = Some (VInt z) /\ In z cs.
Proof.
  intros Hdef Hz0 Hp.
  destruct (ParserMore.parse_final _ _ Hp) as [st [Hs [st' [Hc [_ <-]]]]].
  apply (ck_value n cs). eapply close_choice_kept; [| exact Hc].
  eapply steps_choice_kept; [| | exact Hs].
  - split; cbn [p_ns p_collect p_expect]; try discriminate.
    exists z0. auto.
  - apply Forall_forall. intros t Ht. apply in_map_iff in Ht.
    destruct Ht as [s [<- _]]. unfold declared.
    destruct (classify parser s) eqn:E; [| exact I | exact I].
    eapply classify_declared. exact E.
Qed.

End Choice.

End ChoiceFacts.

(** X3. The parser enforces both enumerations: every configuration it
    returns has a ROACH version among 1, 2 and a spectra count among
    1, 2, 4, 16. *)
Theorem X3_choices_enforced (argv : list string) (a : args) :
  parse_args argv = Ok a ->
  In (rver a) rver_choices /\ In (nspecs a) nspecs_choices.
Proof.
  intros Hp. split; [| apply (parse_args_nspecs _ _ Hp)].
  destruct (parse_args_inv _ _ Hp) as [ns [Hns Ha]].
  destruct (to_args_fields _ _ Ha) as (_ & _ & Hrver & _).
  destruct (ChoiceFacts.parse_choice "rver" rver_choices
              ltac:(by_declaration) ltac:(by_declaration) argv ns 2)
    as [z [Hz Hin]].
  - reflexivity.
  - cbn. tauto.
  - exact Hns.
  - unfold Attr.int in Hrver. rewrite Hz in Hrver. injection Hrver as <-.
    exact Hin.
Qed.

(** *** Block names after [-bn] *)

Module NamesFacts.
Import Argparse.

Lemma words_within (l : list string) : forallb within (map Word l) = true.
Proof. induction l as [| s l IH]; [reflexivity | exact IH]. Qed.

Lemma words_classified (l : list string) :
  Forall is_word l -> map (classify parser) l = map Word l.
Proof.
  induction 1 as [| s l Hs Hl IH]; cbn [map].
  - reflexivity.
  - rewrite Hs, IH. reflexivity.
Qed.

(** Words met while a [nargs="*"] option collects are all collected. *)
Lemma steps_words (l : list string) :
  forall (ns : namespace) (seen : list string) (a : argument)
         (ws : list string) (ex : bool),
    steps (mkP ns seen (Some (a, ws)) None ex) (map Word l)
    = Ok (mkP ns seen (Some (a, rev l ++ ws)) None ex).
Proof.
  induction l as [| s l IH]; intros ns seen a ws ex; cbn [map steps].
  - reflexivity.
  - cbn [step p_expect p_collect p_ns p_seen p_extras bind].
    rewrite IH. cbn [rev]. rewrite <- app_assoc. reflexivity.
Qed.

End NamesFacts.

(** X4. The block names given after [-bn] are stored as given, in the
    order of the command line; no name after the flag gives the empty
    list (not the absent one).  Every other field has its default. *)
Theorem X4_bramnames_in_order (x : string) (names : list string) :
  is_word x -> Forall is_word names ->
  parse_args ("-i" :: x :: "-bn" :: names)
  = Ok (mkArgs x None 2 (Some names) 2 ">i8" 9 64 1080 8
               "cnt_rst" "acc_len" 65536).
Proof.
  intros Hx Hn. unfold parse_args, Argparse.parse. cbn [map].
  rewrite Hx, (NamesFacts.words_classified _ Hn).
  change (Argparse.classify parser "-i")
    with (Argparse.Flag
            (Argparse.mkArg ["-i"; "--ip"] "ip" Argparse.Store true
               Argparse.Single Argparse.AsStr Argparse.VNone None)).
  change (Argparse.classify parser "-bn")
    with (Argparse.Flag
            (Argparse.mkArg ["-bn"; "--bramnames"] "bramnames" Argparse.Store
               false Argparse.ZeroOrMore Argparse.AsStr Argparse.VNone None)).
  cbn [forallb Argparse.within andb]. rewrite NamesFacts.words_within.
  cbn [Argparse.steps Argparse.step Argparse.close bind Argparse.arg_action
       Argparse.arg_nargs Argparse.p_expect Argparse.p_collect Argparse.p_ns
       Argparse.p_seen Argparse.p_extras Argparse.convert Argparse.arg_type
       Argparse.check_choices Argparse.arg_choices Argparse.store
       Argparse.arg_dest].
  rewrite NamesFacts.steps_words.
  cbn [bind Argparse.close Argparse.p_expect Argparse.p_collect Argparse.store
       Argparse.p_ns Argparse.p_seen Argparse.p_extras Argparse.arg_dest].
  rewrite app_nil_r, rev_involutive.
  reflexivity.
Qed.

(** ** The derivation *)

Lemma chunks_of_nothing {A : Type} (n : nat) (l : list A) :
  chunks 0 n l = repeat [] n.
Proof.
  unfold chunks. induction n as [| n IH].
  - reflexivity.
  - rewrite seq_S, map_app, IH. cbn [map firstn].
    change [@nil A] with (repeat (@nil A) 1).
    rewrite <- repeat_app. f_equal. lia.
Qed.

(** X5. With fewer block names than spectra (an empty list included)
    nothing raises: the blocks per spectrum are 0, every spectrum gets
    the empty group, there is no channel and the frequency axis is
    empty. *)
Theorem X5_fewer_names_than_spectra (a : args) (l : list string) :
  In (nspecs a) nspecs_choices ->
  bramnames a = Some l ->
  0 <= awidth a ->
  Z.of_nat (List.length l) < nspecs a ->
  derive a = Ok (0, repeat [] (Z.to_nat (nspecs a)), 0, []).
Proof.
  intros Hc Hl Haw Hfew.
  pose proof (choices_positive _ Hc) as Hpos.
  rewrite (derive_ok a l Hl Hpos Haw).
  rewrite Z.div_small by lia.
  rewrite Z.mul_0_r. cbn [Z.to_nat]. rewrite chunks_of_nothing.
  reflexivity.
Qed.

(** ** The figure builder, continued *)

Section FigureMore.

Context {ext : Extern}.

Lemma getitem_axmap_missing (ns : Z) :
  ~ In ns nspecs_choices -> getitem axmap ns = Raise KeyError.
Proof.
  intros H. unfold nspecs_choices in H. cbn [In] in H.
  unfold axmap. cbn [getitem].
  destruct (Z.eqb_spec 1 ns); [tauto |].
  destruct (Z.eqb_spec 2 ns); [tauto |].
  destruct (Z.eqb_spec 4 ns); [tauto |].
  destruct (Z.eqb_spec 16 ns); [tauto |].
  reflexivity.
Qed.

(** X7. For a spectra count that is not a key of [axmap] the lookup
    raises [KeyError] before anything is built: no figure, no subplot and
    no line is created. *)
Theorem X7_unknown_spectra_count (ns : Z) (bw dBFS : float) (h : heap ext) :
  ~ In ns nspecs_choices ->
  create_figure ns bw dBFS h = (Raise KeyError, h).
Proof.
  intros H. unfold create_figure.
  rewrite (getitem_axmap_missing ns H). reflexivity.
Qed.

Lemma create_figure_inv (ns : Z) (bw dBFS : float) (h h' : heap ext)
    (lines : list handle) :
  create_figure ns bw dBFS h = (Ok lines, h') ->
  exists nrows ncols,
    getitem axmap ns = Ok (nrows, ncols)
    /\ lines = seq (List.length (h_lines h)) (nrows * ncols)
    /\ h' = mkHeap (h_world h) (h_log h) (Some (mkFigure nrows ncols true))
              (h_axes h
               ++ finish_all bw dBFS 0 (List.length (h_lines h))
                    (fresh_axes nrows ncols))
              (h_lines h
               ++ map (fun ax => mkLine ax true None)
                      (seq (List.length (h_axes h)) (nrows * ncols))).
Proof.
  intros H. destruct (getitem axmap ns) as [[nrows ncols] | e |] eqn:Hget.
  - rewrite (create_figure_run ns nrows ncols bw dBFS h Hget) in H.
    injection H as <- <-. exists nrows, ncols. auto.
  - unfold create_figure in H. rewrite Hget in H. discriminate H.
  - unfold create_figure in H. rewrite Hget in H. discriminate H.
Qed.

Lemma finish_all_inv (bw dBFS : float) (todo : list axes_obj) (i ln j : nat)
    (ax : axes_obj) :
  nth_error (finish_all bw dBFS i ln todo) j = Some ax ->
  exists a, ax = finish bw dBFS (i + j)%nat (ln + j)%nat a.
Proof.
  intros H.
  destruct (nth_error todo j) as [a |] eqn:E.
  - rewrite (finish_all_nth bw dBFS todo i ln j a E) in H.
    injection H as <-. exists a. reflexivity.
  - apply nth_error_None in E.
    assert (Hn : nth_error (finish_all bw dBFS i ln todo) j = None)
      by (apply nth_error_None; rewrite finish_all_length; exact E).
    congruence.
Qed.

(** X8. For every subplot it makes, [create_figure] asks for the
    x-range from 0 to the bandwidth and the y-range from [-dBFS-2] to 0
    (the arguments of its [set_xlim] and [set_ylim] calls), sets the
    labels ["Frequency [MHz]"] and ["Power [dBFS]"], and switches the
    grid on. *)
Theorem X8_subplot_settings (ns : Z) (bw dBFS : float) (h h' : heap ext)
    (lines : list handle) (j : nat) (ax : axes_obj) :
  create_figure ns bw dBFS h = (Ok lines, h') ->
  (List.length (h_axes h) <= j)%nat ->
  nth_error (h_axes h') j = Some ax ->
  ax_xlim_asked ax = Some (0, bw)%float
  /\ ax_ylim_asked ax = Some (- dBFS - 2, 0)%float
  /\ ax_xlabel ax = "Frequency [MHz]"
  /\ ax_ylabel ax = "Power [dBFS]"
  /\ ax_grid ax = true.
Proof.
  intros Hcf Hj Hax.
  destruct (create_figure_inv _ _ _ _ _ _ Hcf) as [nrows [ncols [_ [_ ->]]]].
  cbn [h_axes] in Hax. rewrite nth_error_app2 in Hax by exact Hj.
  destruct (finish_all_inv _ _ _ _ _ _ _ Hax) as [a0 ->].
  repeat split.
Qed.

(** X9. [create_figure] touches neither the instrument nor the call
    log, and leaves the subplots and lines that existed as they were;
    the lines it adds are animated and have no data yet.  This holds
    whether it returns or raises. *)
Theorem X9_create_figure_frame (ns : Z) (bw dBFS : float) (h h' : heap ext)
    (r : outcome (list handle)) :
  create_figure ns bw dBFS h = (r, h') ->
  h_world h' = h_world h
  /\ h_log h' = h_log h
  /\ firstn (List.length (h_axes h)) (h_axes h') = h_axes h
  /\ firstn (List.length (h_lines h)) (h_lines h') = h_lines h
  /\ forall j ln, (List.length (h_lines h) <= j)%nat ->
       nth_error (h_lines h') j = Some ln ->
       ln_animated ln = true /\ ln_data ln = None.
Proof.
  intros Hcf.
  assert (Hsame : forall x : heap ext,
            h_world x = h_world x /\ h_log x = h_log x
            /\ firstn (List.length (h_axes x)) (h_axes x) = h_axes x
            /\ firstn (List.length (h_lines x)) (h_lines x) = h_lines x
            /\ forall j ln, (List.length (h_lines x) <= j)%nat ->
                 nth_error (h_lines x) j = Some ln ->
                 ln_animated ln = true /\ ln_data ln = None).
  { intros x. rewrite !firstn_all. repeat split; try reflexivity;
      apply nth_error_None in H; congruence. }
  destruct (getitem axmap ns) as [[nrows ncols] | e |] eqn:Hget.
  - rewrite (create_figure_run ns nrows ncols bw dBFS h Hget) in Hcf.
    injection Hcf as _ <-.
    cbn [h_world h_log h_axes h_lines].
    split; [reflexivity |]. split; [reflexivity |].
    split; [rewrite firstn_app, Nat.sub_diag, firstn_all; cbn [firstn];
            apply app_nil_r |].
    split; [rewrite firstn_app, Nat.sub_diag, firstn_all; cbn [firstn];
            apply app_nil_r |].
    intros j ln Hj Hln. rewrite nth_error_app2 in Hln by exact Hj.
    rewrite nth_error_map in Hln.
    match type of Hln with option_map _ ?t = _ => destruct t end;
      [| discriminate Hln].
    injection Hln as <-. split; reflexivity.
  - unfold create_figure in Hcf. rewrite Hget in Hcf.
    injection Hcf as _ <-. apply Hsame.
  - unfold create_figure in Hcf. rewrite Hget in Hcf.
    injection Hcf as _ <-. apply Hsame.
Qed.

End FigureMore.

(** ** The run, continued *)

Section RunMore.

Context {ext : Extern}.

Lemma create_figure_calls_nothing (ns : Z) (bw dBFS : float) (h h' : heap ext)
    (r : outcome (list handle)) :
  create_figure ns bw dBFS h = (r, h') ->
  h_world h' = h_world h /\ h_log h' = h_log h.
Proof.
  intros Hcf.
  destruct (getitem axmap ns) as [[nrows ncols] | e |] eqn:Hget.
  - rewrite (create_figure_run ns nrows ncols bw dBFS h Hget) in Hcf.
    injection Hcf as _ <-. split; reflexivity.
  - unfold create_figure in Hcf. rewrite Hget in Hcf.
    injection Hcf as _ <-. split; reflexivity.
  - unfold create_figure in Hcf. rewrite Hget in Hcf.
    injection Hcf as _ <-. split; reflexivity.
Qed.

(** X10. Among the command lines written with full flags (every token
    one of the declared flags, or no flag at all), an accepted one that
    contains neither [-bn] nor [--bramnames] ends in the type error of
    line 42: the device has been initialised, and nothing else has been
    done (no figure, no register write, no animation). *)
Theorem X10_no_block_names (argv : list string) (a : args) (k : nat)
    (w : world) :
  Forall spelled_out argv ->
  parse_args argv = Ok a ->
  ~ In "-bn" argv -> ~ In "--bramnames" argv ->
  main argv k w
  = (Raise TypeError,
     mkHeap (snd (initialize_roach (ip a) (boffile a) (rver a) w))
            [InitializeRoach (ip a) (boffile a) (rver a)] None [] []).
Proof.
  intros _ Hp Hs Hl.
  destruct (parse_args_inv _ _ Hp) as [ns [Hns Ha]].
  destruct (to_args_fields _ _ Ha) as (_ & _ & _ & Hbn & _).
  assert (Hnone : bramnames a = None)
    by (absent_field Hns Hbn "bramnames" Argparse.VNone ["-bn"; "--bramnames"]).
  unfold main. rewrite Hp. apply run_without_bramnames. exact Hnone.
Qed.




Lemma tick_calls_length (c : env ext) w pairs evs w' :
  tick_calls c w pairs evs w' -> List.length evs = (3 * List.length pairs)%nat.
Proof.
  induction 1 as [| w w1 w2 line brams d rest evs Hr Ht IH]; simpl.
  - reflexivity.
  - rewrite IH. lia.
Qed.

(** The reads of a tick are the groups of the pairs, in order. *)
Lemma tick_reads (fs : frame_state ext) :
  filter is_read (tick_log fs)
  = map (fun g => ReadInterleaveData (e_roach (cells fs)) g
                    (awidth (e_args (cells fs))) (dwidth (e_args (cells fs)))
                    (dtype (e_args (cells fs))))
        (map snd (combine (e_lines (cells fs)) (e_specbrams_list (cells fs)))).
Proof.
  destruct (animate_calls fs) as [Hc _].
  rewrite (tick_calls_reads _ _ _ _ _ Hc), map_map. reflexivity.
Qed.

Lemma tick_sizes (fs : frame_state ext) :
  List.length (filter is_read (tick_log fs))
  = Nat.min (List.length (e_lines (cells fs)))
            (List.length (e_specbrams_list (cells fs)))
  /\ List.length (tick_log fs)
     = (3 * Nat.min (List.length (e_lines (cells fs)))
                    (List.length (e_specbrams_list (cells fs))))%nat.
Proof.
  destruct (animate_calls fs) as [Hc _]. split.
  - rewrite tick_reads, !length_map, length_combine. reflexivity.
  - rewrite (tick_calls_length _ _ _ _ _ Hc), length_combine. reflexivity.
Qed.

(** X12. A tick makes as many reads as [zip] makes pairs, the smaller of
    the number of lines and the number of groups, and three calls per
    pair; without a line or without a group it does nothing at all. *)
Theorem X12_zip_truncates (fs : frame_state ext) :
  List.length (filter is_read (tick_log fs))
  = Nat.min (List.length (e_lines (cells fs)))
            (List.length (e_specbrams_list (cells fs)))
  /\ List.length (tick_log fs)
     = (3 * Nat.min (List.length (e_lines (cells fs)))
                    (List.length (e_specbrams_list (cells fs))))%nat
  /\ (e_lines (cells fs) = [] \/ e_specbrams_list (cells fs) = [] ->
      snd (animate fs) = fs).
Proof.
  destruct (tick_sizes fs) as [Hr Hl].
  split; [exact Hr |]. split; [exact Hl |].
  intros Hempty. destruct fs as [c h]. unfold animate. cbn [cells hp snd] in *.
  destruct Hempty as [-> | ->].
  - reflexivity.
  - destruct (e_lines c); reflexivity.
Qed.








Lemma setup_log (a : args) (w : world) :
  exists rest,
    h_log (snd (setup a (empty_heap w)))
    = InitializeRoach (ip a) (boffile a) (rver a) :: rest
    /\ filter is_initialize rest = [].
Proof.
  unfold setup, call_initialize_roach.
  destruct (initialize_roach _ _ _ _) as [r w1].
  destruct (derive a) as [[[[nb gs] nch] fr] | e |];
    [| exists []; split; reflexivity | exists []; split; reflexivity].
  destruct (dBFS_of a nch) as [d | e |];
    [| exists []; split; reflexivity | exists []; split; reflexivity].
  destruct (create_figure _ _ _ _) as [res h'] eqn:Hcf.
  destruct (create_figure_calls_nothing _ _ _ _ _ _ Hcf) as [_ Hlog].
  cbn [with_world log empty_heap h_log app] in Hlog.
  destruct res as [lines | e |]; cbn [snd].
  - unfold set_registers, call_print, call_write_int, with_world, log.
    cbn [h_log h_world]. rewrite Hlog. cbn [app].
    eexists. split; reflexivity.
  - rewrite Hlog. exists []. split; reflexivity.
  - rewrite Hlog. exists []. split; reflexivity.
Qed.

Lemma frame_events_no_initialize (evs : list (event ext)) :
  Forall frame_event evs -> filter is_initialize evs = [].
Proof.
  induction 1 as [| e evs He Hevs IH]; simpl.
  - reflexivity.
  - destruct e; simpl in *; try contradiction; exact IH.
Qed.

(** X16. The device is initialised exactly once, and first: for an
    accepted command line, whatever happens afterwards, the call log
    starts with [initialize_roach] on the parsed address, bitstream file
    and version, and holds no other initialisation; for a command line
    that the parser refuses (it exits with a usage error, or after the
    help text) there is no call at all and the instrument is left as it
    was.  Nothing is said of the command lines outside the covered
    fragment. *)
Theorem X16_initialised_once_and_first (argv : list string) (k : nat)
    (w : world) :
  match parse_args argv with
  | Ok a =>
      hd_error (h_log (snd (main argv k w)))
      = Some (InitializeRoach (ip a) (boffile a) (rver a))
      /\ filter is_initialize (h_log (snd (main argv k w)))
         = [InitializeRoach (ip a) (boffile a) (rver a)]
  | Raise e =>
      h_log (snd (main argv k w)) = [] /\ h_world (snd (main argv k w)) = w
  | Unmodelled => True
  end.
Proof.
  unfold main. destruct (parse_args argv) as [a | e |];
    [| split; reflexivity | exact I].
  unfold run. destruct (setup_log a w) as [rest [Hlog Hrest]].
  destruct (setup a (empty_heap w)) as [[c | e |] h]; cbn [snd] in *.
  - unfold show_animation.
    match goal with |- context [ticks k ?fs0] =>
      destruct (ticks_log k fs0) as [frames [Hl Hf]] end.
    cbn [hp log h_log] in Hl. rewrite Hl, Hlog. cbn [app hd_error].
    split; [reflexivity |].
    cbn [filter is_initialize]. rewrite !filter_app, Hrest.
    rewrite (frame_events_no_initialize _ Hf). reflexivity.
  - rewrite Hlog. cbn [hd_error filter is_initialize]. rewrite Hrest.
    split; reflexivity.
  - rewrite Hlog. cbn [hd_error filter is_initialize]. rewrite Hrest.
    split; reflexivity.
Qed.

Lemma animate_loop_assigns (c : env ext) (pairs : list (handle * list string)) :
  NoDup (map fst pairs) ->
  forall (h : heap ext) (ln : handle) (x : list float) (y : specdata),
    In (SetData ln x y)
       (skipn (List.length (h_log h)) (h_log (animate_loop c pairs h))) ->
    (ln < List.length (h_lines h))%nat ->
    exists l', nth_error (h_lines (animate_loop c pairs h)) ln = Some l'
               /\ ln_data l' = Some (x, y).
Proof.
  induction pairs as [| [line brams] rest IH]; intros Hnd h ln x y Hin Hlt;
    cbn [animate_loop] in *.
  - rewrite skipn_all in Hin. destruct Hin.
  - cbn [map fst] in Hnd. inversion Hnd as [| ? ? Hfresh Hnd']; subst.
    rewrite animate_pair_effect in *.
    match goal with |- context [animate_loop c rest ?hh] =>
      remember hh as h1 eqn:Eh1 in * end.
    assert (Hlog1 : h_log h1
              = h_log h
                ++ [ReadInterleaveData (e_roach c) brams (awidth (e_args c))
                      (dwidth (e_args c)) (dtype (e_args c));
                    ScaleAndDBFS
                      (fst (read_interleave_data (e_roach c) brams
                              (awidth (e_args c)) (dwidth (e_args c))
                              (dtype (e_args c)) (h_world h)))
                      (acclen (e_args c)) (nbits (e_args c)) (e_nchannels c);
                    SetData line (e_freqs c)
                      (scale_and_dBFS_specdata
                         (fst (read_interleave_data (e_roach c) brams
                                 (awidth (e_args c)) (dwidth (e_args c))
                                 (dtype (e_args c)) (h_world h)))
                         (acclen (e_args c)) (nbits (e_args c))
                         (e_nchannels c))])
      by (subst h1; reflexivity).
    assert (Hlines1 : h_lines h1
              = update line
                  (fun l0 => mkLine (ln_axes l0) (ln_animated l0)
                     (Some (e_freqs c,
                            scale_and_dBFS_specdata
                              (fst (read_interleave_data (e_roach c) brams
                                      (awidth (e_args c)) (dwidth (e_args c))
                                      (dtype (e_args c)) (h_world h)))
                              (acclen (e_args c)) (nbits (e_args c))
                              (e_nchannels c))))
                  (h_lines h))
      by (subst h1; reflexivity).
    clear Eh1.
    destruct (animate_loop_calls c rest h1) as [evs [_ [Hlog _]]].
    destruct (animate_loop_lines c rest h1) as [_ [_ [Hout _]]].
    assert (Hskip : skipn (List.length (h_log h1)) (h_log (animate_loop c rest h1))
                    = evs) by (rewrite Hlog; apply skipn_app_exact).
    rewrite Hlog, Hlog1, <- app_assoc, skipn_app_exact in Hin.
    cbn [app In] in Hin.
    destruct Hin as [E | [E | [E | Hin]]]; try discriminate E.
    + injection E as -> <- <-.
      rewrite Hout by exact Hfresh. rewrite Hlines1.
      destruct (nth_error (h_lines h) ln) as [l0 |] eqn:E0.
      * erewrite update_nth_same by exact E0.
        eexists. split; reflexivity.
      * apply nth_error_None in E0. lia.
    + apply IH.
      * exact Hnd'.
      * rewrite Hskip. exact Hin.
      * rewrite Hlines1, update_length. exact Hlt.
Qed.

Lemma NoDup_zip_fst {A B : Type} (l1 : list A) (l2 : list B) :
  NoDup l1 -> NoDup (map fst (combine l1 l2)).
Proof.
  revert l2. induction l1 as [| x l1 IH]; intros l2 Hnd; [constructor |].
  destruct l2 as [| y l2]; [constructor |].
  inversion Hnd as [| ? ? Hx Hnd']; subst. cbn [combine map fst].
  constructor; [| apply IH; exact Hnd'].
  intros Hin. apply Hx. eapply in_combine_fst. exact Hin.
Qed.

(** X17. When the lines are distinct (as the ones [create_figure]
    returns are), a line ends the tick with exactly the data that the
    tick assigned to it: for every [set_data] call of the tick, the line
    it was made on holds that x and y data afterwards. *)
Theorem X17_line_holds_its_assignment (fs : frame_state ext) (ln : handle)
    (x : list float) (y : specdata) :
  NoDup (e_lines (cells fs)) ->
  In (SetData ln x y) (tick_log fs) ->
  (ln < List.length (h_lines (hp fs)))%nat ->
  exists l', nth_error (h_lines (hp (snd (animate fs)))) ln = Some l'
             /\ ln_data l' = Some (x, y).
Proof.
  intros Hnd Hin Hlt. unfold tick_log, animate in *. cbn [snd hp] in *.
  eapply animate_loop_assigns; [apply NoDup_zip_fst; exact Hnd | exact Hin
                               | exact Hlt].
Qed.

End RunMore.

(** *** A value outside the choices *)

(** X18. A spectra count written as a plain numeral that is not among
    1, 2, 4, 16 is refused: [parse_args] exits with status 2 (a usage
    error), and nothing of the script runs. *)
Theorem X18_spectra_count_refused (x s : string) (z : Z) :
  is_word x -> is_word s ->
  Argparse.parse_int s = Some z ->
  ~ In z nspecs_choices ->
  parse_args ["-i"; x; "-ns"; s] = Raise (SystemExit 2).
Proof.
  intros Hx Hs Hz Hout. unfold parse_args, Argparse.parse. cbn [map].
  rewrite Hx, Hs.
  change (Argparse.classify parser "-i")
    with (Argparse.Flag
            (Argparse.mkArg ["-i"; "--ip"] "ip" Argparse.Store true
               Argparse.Single Argparse.AsStr Argparse.VNone None)).
  change (Argparse.classify parser "-ns")
    with (Argparse.Flag
            (Argparse.mkArg ["-ns"; "--nspecs"] "nspecs" Argparse.Store false
               Argparse.Single Argparse.AsInt (Argparse.VInt 2)
               (Some nspecs_choices))).
  cbn [forallb Argparse.within andb].
  cbn [Argparse.steps Argparse.step Argparse.close bind Argparse.arg_action
       Argparse.arg_nargs Argparse.p_expect Argparse.p_collect Argparse.p_ns
       Argparse.p_seen Argparse.p_extras Argparse.convert Argparse.arg_type
       Argparse.check_choices Argparse.arg_choices Argparse.store
       Argparse.arg_dest].
  rewrite Hz. cbn [bind].
  assert (Hmem : Argparse.mem z nspecs_choices = false).
  { destruct (Argparse.mem z nspecs_choices) eqn:E; [| reflexivity].
    apply ParserFacts.mem_In in E. contradiction. }
  rewrite Hmem. reflexivity.
Qed.

(** ** The further properties at concrete inputs *)

Lemma X1_witness : In "-i" argv_four_names \/ In "--ip" argv_four_names.
Proof.
  assert (Hp : parse_args argv_four_names = Ok args_four_names)
    by (vm_compute; reflexivity).
  assert (Hf : Forall spelled_out argv_four_names)
    by (repeat constructor).
  exact (X1_ip_required argv_four_names args_four_names Hf Hp).
Defined.

Lemma X2_witness : acclen (default_args "roach") = 65536.
Proof.
  assert (Hp : parse_args ["-i"; "roach"] = Ok (default_args "roach"))
    by (vm_compute; reflexivity).
  assert (Hf : Forall spelled_out ["-i"; "roach"]) by (repeat constructor).
  destruct (X2_absent_options_keep_defaults _ _ Hf Hp)
    as (_ & _ & _ & _ & _ & _ & _ & _ & _ & _ & _ & Hal).
  apply Hal; cbn [In]; intuition discriminate.
Defined.

Lemma X3_witness :
  In (rver args_four_names) rver_choices
  /\ In (nspecs args_four_names) nspecs_choices.
Proof.
  assert (Hp : parse_args argv_four_names = Ok args_four_names)
    by (vm_compute; reflexivity).
  exact (X3_choices_enforced argv_four_names args_four_names Hp).
Defined.

Lemma X4_witness :
  parse_args ["-i"; "roach"; "-bn"; "dout1"; "dout0"]
  = Ok (mkArgs "roach" None 2 (Some ["dout1"; "dout0"]) 2 ">i8" 9 64 1080 8
               "cnt_rst" "acc_len" 65536).
Proof.
  apply (X4_bramnames_in_order "roach" ["dout1"; "dout0"]).
  - reflexivity.
  - repeat constructor.
Defined.

Lemma X5_witness :
  derive args_one_name = Ok (0, [[]; []], 0, []).
Proof.
  apply (X5_fewer_names_than_spectra args_one_name ["dout0"]).
  - simpl; tauto.
  - reflexivity.
  - simpl; lia.
  - simpl; lia.
Defined.

Lemma X7_witness :
  create_figure (ext := Bench.bench) 3 1080 0
    (empty_heap (ext := Bench.bench) Bench.power_on)
  = (Raise KeyError, empty_heap (ext := Bench.bench) Bench.power_on).
Proof.
  apply (X7_unknown_spectra_count (ext := Bench.bench)).
  cbn [nspecs_choices In]. intuition discriminate.
Defined.

Lemma X8_witness :
  ax_xlim_asked (subplot_done 1080 0 2 1) = Some (0, 1080)%float
  /\ ax_grid (subplot_done 1080 0 2 1) = true.
Proof.
  assert (Hcf : create_figure (ext := Bench.bench) 2 1080 0
                  (empty_heap (ext := Bench.bench) Bench.power_on)
                = (Ok [0; 1]%nat,
                   mkHeap (ext := Bench.bench) Bench.power_on []
                     (Some (mkFigure 1 2 true))
                     (map (subplot_done 1080 0 2) [0; 1]%nat)
                     (map (line_new (ext := Bench.bench)) [0; 1]%nat)))
    by reflexivity.
  destruct (X8_subplot_settings (ext := Bench.bench) _ _ _ _ _ _ 1%nat
              (subplot_done 1080 0 2 1) Hcf ltac:(cbn; lia) eq_refl)
    as (Hx & _ & _ & _ & Hg).
  split; [exact Hx | exact Hg].
Defined.

Lemma X9_witness :
  h_log (snd (create_figure (ext := Bench.bench) 4 1080 0
                (empty_heap (ext := Bench.bench) Bench.power_on))) = [].
Proof.
  destruct (create_figure (ext := Bench.bench) 4 1080 0
              (empty_heap (ext := Bench.bench) Bench.power_on))
    as [r h1] eqn:Hcf.
  destruct (X9_create_figure_frame (ext := Bench.bench) _ _ _ _ _ _ Hcf)
    as (_ & Hlog & _).
  exact Hlog.
Defined.

Lemma X10_witness :
  fst (main (ext := Bench.bench) ["-i"; "roach"] 2 Bench.power_on)
  = Raise TypeError.
Proof.
  assert (Hp : parse_args ["-i"; "roach"] = Ok (default_args "roach"))
    by (vm_compute; reflexivity).
  assert (Hf : Forall spelled_out ["-i"; "roach"]) by (repeat constructor).
  rewrite (X10_no_block_names (ext := Bench.bench) ["-i"; "roach"]
             (default_args "roach") 2 Bench.power_on Hf Hp);
    [reflexivity | |]; cbn [In]; intuition discriminate.
Defined.


Lemma X12_witness : snd (animate (ext := Bench.bench)
                           (mkFrame (mkEnv (ext := Bench.bench) args_four_names "roach" [] 4 [] [0%nat])
                                    (empty_heap (ext := Bench.bench) Bench.power_on)))
                    = mkFrame (mkEnv (ext := Bench.bench) args_four_names "roach" [] 4 [] [0%nat])
                              (empty_heap (ext := Bench.bench) Bench.power_on).
Proof.
  apply (X12_zip_truncates (ext := Bench.bench)). right. reflexivity.
Defined.




Lemma X17_witness :
  exists l', nth_error (h_lines (hp (snd (animate bench_frame)))) 0 = Some l'
             /\ ln_data l' = Some ([0; 1]%float, [-8]).
Proof.
  apply (X17_line_holds_its_assignment bench_frame 0%nat [0; 1]%float [-8]).
  - cbn. repeat constructor. intros [].
  - vm_compute. right. right. left. reflexivity.
  - cbn. lia.
Defined.

Lemma X18_witness :
  parse_args ["-i"; "roach"; "-ns"; "3"] = Raise (SystemExit 2).
Proof.
  apply (X18_spectra_count_refused "roach" "3" 3).
  - reflexivity.
  - reflexivity.
  - reflexivity.
  - cbn [nspecs_choices In]. intuition discriminate.
Defined.
